(** * padmiss/api.py: the record model and the tournament API client

    A shallow embedding of [src/padmiss/api.py].  Python values, record
    classes and exceptions are modelled explicitly; the functions of the
    module are translated one by one and the properties of the record
    model ([Base.__init__], [Player.getMeta]) and of the client
    ([get_player], [get_score_history], [post_score]) are proved about
    these translations. *)

From Stdlib Require Import String Ascii List ZArith Bool Lia PeanoNat DecimalString.
Import ListNotations.

#[local] Set Warnings "-register-all".

Local Open Scope string_scope.
Local Open Scope list_scope.

(** ** Python values *)

(** The values that flow through the module: JSON data decoded by
    [json.loads] (null, booleans, numbers, strings, arrays, objects),
    record class objects (the entries of [__fields__] may be classes) and
    record instances, which carry their class and their [__dict__].
    Dictionaries keep insertion order, as Python's do, and all their keys
    are strings here (keyword arguments, attribute names, JSON members).
    Numbers are integers; the module does no arithmetic on floats.  A
    text is the sequence of its characters, one [ascii] for each
    character, so that [len], indexing and iteration go by character as
    Python's do; this covers the characters up to U+00FF, and a text is
    never read here as the bytes of an encoding. *)
Inductive value : Type :=
| VNone
| VBool (b : bool)
| VInt (z : Z)
| VStr (s : string)
| VList (l : list value)
| VDict (d : list (string * value))
| VClass (c : class)
| VInst (c : class) (attrs : list (string * value))
with class : Type :=
| Class (name : string) (flattened : bool) (fields : list (string * value)).

Abbreviation dict := (list (string * value)).

Definition cls_name (c : class) : string :=
  match c with Class n _ _ => n end.

(** [issubclass(c, FlattenedBase)]; every modelled class derives from [Base]. *)
Definition cls_flattened (c : class) : bool :=
  match c with Class _ f _ => f end.

(** [c.__fields__] *)
Definition cls_fields (c : class) : dict :=
  match c with Class _ _ fs => fs end.

(** ** Exceptions and the error monad *)

Inductive exn : Type :=
| TournamentApiError (arg : value)
| TypeError
| KeyError (key : string)
| IndexError
| AttributeError (name : string)
| ValueError
| Exception (msg : string).

Inductive result (A : Type) : Type :=
| Ok (a : A)
| Raise (e : exn).

Arguments Ok {A} a.
Arguments Raise {A} e.

Definition bind {A B : Type} (m : result A) (f : A -> result B) : result B :=
  match m with
  | Ok a => f a
  | Raise e => Raise e
  end.

Notation "x <- m ;; k" := (bind m (fun x => k))
  (at level 61, m at next level, right associativity).

(** ** Dictionaries *)

(** [k in d] and [d.get(k)]: the first binding of [k]. *)
Fixpoint get (k : string) (d : dict) : option value :=
  match d with
  | [] => None
  | (k', v) :: rest => if String.eqb k k' then Some v else get k rest
  end.

Definition mem (k : string) (d : dict) : bool :=
  match get k d with Some _ => true | None => false end.

(** [d[k] = v]: an existing key keeps its position, a new key goes last. *)
Fixpoint setitem (k : string) (v : value) (d : dict) : dict :=
  match d with
  | [] => [(k, v)]
  | (k', v') :: rest =>
      if String.eqb k k' then (k', v) :: rest else (k', v') :: setitem k v rest
  end.

(** [d.update(e)] *)
Definition update (d e : dict) : dict :=
  fold_left (fun acc kv => setitem (fst kv) (snd kv) acc) e d.

Definition keys (d : dict) : list string := map fst d.

(** ** Truth values and type tests *)

(** [bool(v)]: record classes and record instances define neither
    [__bool__] nor [__len__], so they are true. *)
Definition truthy (v : value) : bool :=
  match v with
  | VNone => false
  | VBool b => b
  | VInt z => negb (Z.eqb z 0)
  | VStr s => negb (String.eqb s EmptyString)
  | VList l => match l with [] => false | _ => true end
  | VDict d => match d with [] => false | _ => true end
  | VClass _ => true
  | VInst _ _ => true
  end.

(** [v == None] *)
Definition eq_None (v : value) : bool :=
  match v with VNone => true | _ => false end.

(** [isinstance(v, dict)] *)
Definition isinstance_dict (v : value) : bool :=
  match v with VDict _ => true | _ => false end.

(** [isinstance(v, Base)] *)
Definition isinstance_Base (v : value) : bool :=
  match v with VInst _ _ => true | _ => false end.

(** [isinstance(v, FlattenedBase)] *)
Definition isinstance_FlattenedBase (v : value) : bool :=
  match v with VInst c _ => cls_flattened c | _ => false end.

(** ** Base.__init__ *)

(** ['Required parameter \'%s\' missing' % k] *)
Definition missing_msg (k : string) : string :=
  "Required parameter '" ++ k ++ "' missing".

Section Init.
(** [c( **val)], the call of a field's spec on a mapping. *)
Variable call : value -> value -> result value.

(** One turn of the loop of [__init__]: the value [setattr] receives for
    the field [k] with spec [c]. *)
Definition init_field (k : string) (c : value) (kwargs : dict) : result value :=
  val <- match get k kwargs with
         | None =>
             if eq_None c
             then Raise (TournamentApiError (VStr (missing_msg k)))
             else Ok c
         | Some v => Ok v
         end ;;
  if truthy c && isinstance_dict val then call c val else Ok val.

(** The loop over [self.__fields__.items()]; [self] is the instance's
    [__dict__] so far. *)
Fixpoint init_fields (fields kwargs self : dict) : result dict :=
  match fields with
  | [] => Ok self
  | (k, c) :: rest =>
      val <- init_field k c kwargs ;;
      init_fields rest kwargs (setitem k val self)
  end.
End Init.

(** Instantiating a record class, [c( **kwargs)].  The keyword arguments
    are bound to the parameters of [__init__(self, **kwargs)] before its
    body runs: a key named [self] collides with the instance and the call
    raises [TypeError].  In the loop a field's spec is called only on a
    mapping; a record class is then instantiated with the mapping as its
    keyword arguments, anything else is not callable. *)
Fixpoint construct (c : class) (kwargs : dict) {struct c} : result value :=
  match c with
  | Class name fl fields =>
      if mem "self" kwargs then Raise TypeError
      else
        self <- init_fields
                  (fun spec val =>
                     match spec, val with
                     | VClass c', VDict d => construct c' d
                     | _, _ => Raise TypeError
                     end)
                  fields kwargs [] ;;
        Ok (VInst (Class name fl fields) self)
  end.

(** ** The record classes of the module *)

Definition required (names : list string) : dict :=
  map (fun k => (k, VNone)) names.

Definition Player : class :=
  Class "Player" true
    [ ("nickname", VNone);
      ("shortNickname", VStr EmptyString);
      ("avatarIconUrl", VStr EmptyString);
      ("rfidUid", VStr EmptyString);
      ("_id", VNone);
      ("metaData", VStr "{}");
      ("mountType", VBool false) ].

Definition ScoreBreakdown : class :=
  Class "ScoreBreakdown" true
    (required
       [ "fantastics"; "excellents"; "greats"; "decents"; "wayoffs"; "misses";
         "holds"; "holdsTotal"; "minesHit"; "minesAvoided"; "minesTotal";
         "rolls"; "rollsTotal"; "jumps"; "jumpsTotal"; "hands"; "handsTotal" ]).

Definition Score : class :=
  Class "Score" true
    [ ("scoreBreakdown", VClass ScoreBreakdown);
      ("scoreValue", VNone);
      ("passed", VNone);
      ("secondsSurvived", VNone) ].

Definition Song : class :=
  Class "Song" true
    (required
       [ "title"; "titleTransliteration"; "subTitle"; "subTitleTransliteration";
         "artist"; "artistTransliteration"; "durationSeconds" ]).

Definition TimingWindows : class :=
  Class "TimingWindows" false
    (required
       [ "fantasticTimingWindow"; "excellentTimingWindow"; "greatTimingWindow";
         "decentTimingWindow"; "wayoffTimingWindow"; "mineTimingWindow";
         "holdTimingWindow"; "rollTimingWindow" ]).

Definition ChartUpload : class :=
  Class "ChartUpload" false
    [ ("hash", VNone);
      ("meter", VNone);
      ("playMode", VNone);
      ("stepData", VNone);
      ("stepArtist", VNone);
      ("song", VClass Song);
      ("score", VClass Score);
      ("group", VNone);
      ("cabSide", VNone);
      ("speedMod", VNone);
      ("musicRate", VNone);
      ("modsTurn", VNone);
      ("modsTransform", VNone);
      ("modsOther", VNone);
      ("noteSkin", VNone);
      ("perspective", VNone);
      ("timingWindows", VClass TimingWindows);
      ("inputEvents", VList []);
      ("noteScoresWithBeats", VList []) ].

Definition InputEvent : class :=
  Class "InputEvent" false (required [ "beat"; "column"; "released" ]).

Definition NoteScore : class :=
  Class "NoteScore" false
    (required [ "beat"; "column"; "holdNoteScore"; "tapNoteScore"; "offset" ]).

(** ** Attribute access, subscripts and iteration *)

(** [v.name] for the attribute names the module reads ([_id], [score],
    [group], [metaData], ...): none of them is a class attribute or an
    attribute of a built-in value, so only an instance's [__dict__] can
    supply it. *)
Definition getattr (v : value) (name : string) : result value :=
  match v with
  | VInst _ attrs =>
      match get name attrs with
      | Some x => Ok x
      | None => Raise (AttributeError name)
      end
  | _ => Raise (AttributeError name)
  end.

(** [v[k]] for a string [k]. *)
Definition getitem (v : value) (k : string) : result value :=
  match v with
  | VDict d =>
      match get k d with
      | Some x => Ok x
      | None => Raise (KeyError k)
      end
  | _ => Raise TypeError
  end.

(** [v[0]]; a dictionary has no integer key here. *)
Definition getitem0 (v : value) : result value :=
  match v with
  | VList l =>
      match l with
      | x :: _ => Ok x
      | [] => Raise IndexError
      end
  | VStr s =>
      match s with
      | String a _ => Ok (VStr (String a EmptyString))
      | EmptyString => Raise IndexError
      end
  | VDict _ => Raise (KeyError "0")
  | _ => Raise TypeError
  end.

(** [needle in v] for a string [needle]: key membership in a dictionary,
    element membership in a list, substring test in a string. *)
Definition contains (needle : string) (v : value) : result bool :=
  match v with
  | VDict d => Ok (mem needle d)
  | VList l =>
      Ok (existsb (fun x => match x with
                            | VStr s => String.eqb needle s
                            | _ => false
                            end) l)
  | VStr s =>
      Ok (match String.index 0 needle s with Some _ => true | None => false end)
  | _ => Raise TypeError
  end.

(** [len(v)] *)
Definition len (v : value) : result nat :=
  match v with
  | VList l => Ok (List.length l)
  | VDict d => Ok (List.length d)
  | VStr s => Ok (String.length s)
  | _ => Raise TypeError
  end.

Fixpoint chars (s : string) : list value :=
  match s with
  | EmptyString => []
  | String a rest => VStr (String a EmptyString) :: chars rest
  end.

(** The elements [iter(v)] yields. *)
Definition iterate (v : value) : result (list value) :=
  match v with
  | VList l => Ok l
  | VDict d => Ok (map VStr (keys d))
  | VStr s => Ok (chars s)
  | _ => Raise TypeError
  end.

(** [c( **v)] for a record class [c]: the argument must be a mapping. *)
Definition instantiate (c : class) (v : value) : result value :=
  match v with
  | VDict d => construct c d
  | _ => Raise TypeError
  end.

Fixpoint mapM {A B : Type} (f : A -> result B) (l : list A) : result (list B) :=
  match l with
  | [] => Ok []
  | x :: rest => y <- f x ;; ys <- mapM f rest ;; Ok (y :: ys)
  end.

(** A dictionary display or comprehension: the items are stored in turn. *)
Definition dict_of_items (items : dict) : dict := update [] items.

(** ** Player.getMeta *)

(** [json.loads(v)]: only text is decoded; [decode] gives the document a
    text denotes, when it denotes one. *)
Definition json_loads (decode : string -> option value) (v : value) : result value :=
  match v with
  | VStr s =>
      match decode s with
      | Some x => Ok x
      | None => Raise ValueError
      end
  | _ => Raise TypeError
  end.

Definition getMeta (decode : string -> option value) (self : value) (field : string)
  : result value :=
  metaData <- getattr self "metaData" ;;
  if eq_None metaData then Ok VNone
  else
    data <- json_loads decode metaData ;;
    found <- contains field data ;;
    if found then getitem data field else Ok VNone.

(** ** json.dumps *)

(** What [json.dumps] encodes: null, booleans, numbers, text, and lists
    and dictionaries of such values.  A record class or a record instance,
    at any depth, makes it raise [TypeError]. *)
Fixpoint serialisable (v : value) : bool :=
  match v with
  | VList l => forallb serialisable l
  | VDict d => forallb (fun kv => serialisable (snd kv)) d
  | VClass _ => false
  | VInst _ _ => false
  | _ => true
  end.

(** [json.dumps(json.dumps(filter))], the text of the filter inside a
    query.  The model keeps the filter itself in its place; the encoding
    of the text it yields cannot fail. *)
Definition json_dumps (filter : dict) : result dict :=
  if serialisable (VDict filter) then Ok filter else Raise TypeError.

(** ** The remote service *)

(** What the client sends: a GraphQL query, given by its entity and
    arguments, or an HTTP POST of a JSON body to a path. *)
Inductive request : Type :=
| QPlayers (queryString : dict)
| QScores (limit offset : Z) (queryString : dict)
| Post (path : string) (json : dict).

(** The service answers a request knowing the requests sent before it; the
    answer is the decoded JSON document, or the exception that sending,
    receiving or decoding raised. *)
Definition service : Type := list request -> request -> result value.

(** Computations that talk to the service: the state is the list of the
    requests sent so far, oldest first. *)
Definition io (A : Type) : Type := list request -> result A * list request.

Definition io_ret {A : Type} (a : A) : io A := fun h => (Ok a, h).

Definition io_bind {A B : Type} (m : io A) (f : A -> io B) : io B :=
  fun h =>
    match m h with
    | (Ok a, h') => f a h'
    | (Raise e, h') => (Raise e, h')
    end.

Definition lift {A : Type} (r : result A) : io A := fun h => (r, h).

Definition send (srv : service) (req : request) : io value :=
  fun h => (srv h req, h ++ [req]).

Notation "x <~ m ;; k" := (io_bind m (fun x => k))
  (at level 61, m at next level, right associativity).

(** ** TournamentApi.get_player *)

Definition player_filter (playerId rfidUid nickname : value) : dict :=
  let filter := [] in
  let filter := if truthy playerId then setitem "_id" playerId filter else filter in
  let filter := if truthy rfidUid then setitem "rfidUid" rfidUid filter else filter in
  let filter := if truthy nickname then setitem "nickname" nickname filter else filter in
  filter.

(** What [get_player] does with the decoded answer. *)
Definition player_of_response (data : value) : result value :=
  has_data <- contains "data" data ;;
  if negb has_data then Ok VNone
  else
    players <- (d <- getitem data "data" ;; getitem d "Players") ;;
    not_one <- (if negb (truthy players) then Ok true
                else
                  docs <- getitem players "docs" ;;
                  n <- len docs ;;
                  Ok (negb (Nat.eqb n 1))) ;;
    if (not_one : bool) then Ok VNone
    else
      docs <- getitem players "docs" ;;
      doc <- getitem0 docs ;;
      instantiate Player doc.

(** The text of the query is built, filter included, before
    [graph.execute] is called. *)
Definition get_player (srv : service) (playerId rfidUid nickname : value) : io value :=
  queryString <~ lift (json_dumps (player_filter playerId rfidUid nickname)) ;;
  data <~ send srv (QPlayers queryString) ;;
  lift (player_of_response data).

(** ** TournamentApi.get_score_history: the paging loop *)

(** One turn of the [while True] loop on the decoded answer: the new
    [left] (written [left_]), [offset] and [scores]. *)
Definition score_page (scoreResult : value) (offset : Z) (scores : list value)
  : result (nat * Z * list value) :=
  has_data <- contains "data" scoreResult ;;
  empty <- (if negb has_data then Ok true
            else
              docs <- (d <- getitem scoreResult "data" ;;
                       s <- getitem d "Scores" ;;
                       getitem s "docs") ;;
              Ok (negb (truthy docs))) ;;
  if (empty : bool) then Ok (0%nat, offset, scores)
  else
    sc <- (d <- getitem scoreResult "data" ;; getitem d "Scores") ;;
    docs <- getitem sc "docs" ;;
    left_ <- len docs ;;
    more <- iterate docs ;;
    let scores := scores ++ more in
    let offset := (offset + 10)%Z in
    _ <- getitem sc "totalDocs" ;;
    Ok (left_, offset, scores).

(** The loop; [fuel] bounds the number of turns and [None] is the loop
    still running when the fuel is spent.  Each turn builds the text of
    its query, which encodes [myFilter], and then sends it. *)
Fixpoint score_pages (srv : service) (fuel : nat) (playerId : value)
    (offset : Z) (scores : list value) (h : list request)
  : option (result (list value) * list request) :=
  match fuel with
  | O => None
  | S fuel' =>
      match (queryString <~ lift (json_dumps [("player", playerId)]) ;;
             send srv (QScores 10 offset queryString)) h with
      | (Raise e, h') => Some (Raise e, h')
      | (Ok scoreResult, h') =>
          match score_page scoreResult offset scores with
          | Raise e => Some (Raise e, h')
          | Ok (left_, offset', scores') =>
              if Nat.eqb left_ 0 || (100 <? offset')%Z
              then Some (Ok scores', h')
              else score_pages srv fuel' playerId offset' scores' h'
          end
      end
  end.

(** The score documents [get_score_history] has accumulated when it turns
    to the step charts. *)
Definition get_score_history_scores (srv : service) (fuel : nat) (playerId : value)
    (h : list request) : option (result (list value) * list request) :=
  score_pages srv fuel playerId 0 [] h.

(** ** TournamentApi.post_score *)

(** [v.__dict__]: the attributes of an instance; for a class object its
    namespace, which [class_dict] supplies. *)
Definition dunder_dict (class_dict : class -> dict) (v : value) : result dict :=
  match v with
  | VInst _ attrs => Ok attrs
  | VClass c => Ok (class_dict c)
  | _ => Raise (AttributeError "__dict__")
  end.

(** The client object: [key] is set only when the client was built from a
    configuration object. *)
Record TournamentApi : Type := {
  url : string;
  key : option value
}.

Section PostScore.
Variable class_dict : class -> dict.
Variable self : TournamentApi.

(** [list(map(lambda e: e.__dict__, v))] *)
Definition dicts_of (v : value) : result value :=
  es <- iterate v ;;
  ds <- mapM (dunder_dict class_dict) es ;;
  Ok (VList (map VDict ds)).

(** The dictionary [data] as it stands before the request is made. *)
Definition post_score_data (player upload : value) : result dict :=
  apiKey <- match key self with
            | Some k => Ok k
            | None => Raise (AttributeError "key")
            end ;;
  playerId <- getattr player "_id" ;;
  scoreValue <- (s <- getattr upload "score" ;; getattr s "scoreValue") ;;
  passed <- (s <- getattr upload "score" ;; getattr s "passed") ;;
  secondsSurvived <- (s <- getattr upload "score" ;; getattr s "secondsSurvived") ;;
  group <- getattr upload "group" ;;
  let data := dict_of_items
                [ ("apiKey", apiKey);
                  ("playerId", playerId);
                  ("scoreValue", scoreValue);
                  ("passed", passed);
                  ("secondsSurvived", secondsSurvived);
                  ("group", group) ] in
  breakdown <- (s <- getattr upload "score" ;;
                b <- getattr s "scoreBreakdown" ;;
                dunder_dict class_dict b) ;;
  let data := update data breakdown in
  song <- (s <- getattr upload "song" ;; dunder_dict class_dict s) ;;
  let data := update data song in
  own <- dunder_dict class_dict upload ;;
  let data := update data
                (dict_of_items
                   (filter (fun kv => negb (isinstance_FlattenedBase (snd kv))) own)) in
  inputEvents <- (l <- getattr upload "inputEvents" ;; dicts_of l) ;;
  let data := setitem "inputEvents" inputEvents data in
  noteScores <- (l <- getattr upload "noteScoresWithBeats" ;; dicts_of l) ;;
  let data := setitem "noteScoresWithBeats" noteScores data in
  Ok data.

(** [dumpable = lambda v: v.__dict__ if isinstance(v, Base) else v] *)
Definition dumpable (v : value) : value :=
  match v with
  | VInst _ attrs => VDict attrs
  | _ => v
  end.

(** The [json=] argument of the request. *)
Definition wire_payload (data : dict) : dict :=
  dict_of_items
    (map (fun kv => (fst kv, dumpable (snd kv)))
         (filter (fun kv => negb (eq_None (snd kv))) data)).

(** [x != True] *)
Definition ne_True (x : value) : bool :=
  match x with
  | VBool true => false
  | VInt 1 => false
  | _ => true
  end.

Definition post_score (srv : service) (player upload : value) : io value :=
  data <~ lift (post_score_data player upload) ;;
  j <~ send srv (Post (url self ++ "/post-score") (wire_payload data)) ;;
  success <~ lift (getitem j "success") ;;
  if ne_True success
  then message <~ lift (getitem j "message") ;;
       lift (Raise (TournamentApiError message))
  else io_ret VNone.
End PostScore.

(** ** Notions used to state the properties of [Base.__init__] *)

(** The call [__init__] makes on a field's spec, as [construct] passes it
    to [init_fields]. *)
Definition call_spec (spec val : value) : result value :=
  match spec, val with
  | VClass c', VDict d => construct c' d
  | _, _ => Raise TypeError
  end.







Fixpoint nodupb (l : list string) : bool :=
  match l with
  | [] => true
  | x :: rest => negb (existsb (String.eqb x) rest) && nodupb rest
  end.




(** ** Sample inputs *)

Definition numbered (names : list string) : dict :=
  combine names (map (fun n => VInt (Z.of_nat n)) (seq 1 (List.length names))).

(** A score breakdown, a song and timing windows with every field set. *)
Definition full_breakdown : dict := numbered (keys (cls_fields ScoreBreakdown)).

Definition full_song : dict :=
  map (fun k => (k, VStr k)) (keys (cls_fields Song)).

Definition full_timing : dict := numbered (keys (cls_fields TimingWindows)).

Definition score_kwargs : dict :=
  [ ("scoreBreakdown", VDict full_breakdown);
    ("scoreValue", VInt 987654);
    ("passed", VBool true);
    ("secondsSurvived", VInt 95) ].

Definition sample_event : value :=
  VInst InputEvent [ ("beat", VInt 4); ("column", VInt 2); ("released", VBool false) ].

Definition sample_note : value :=
  VInst NoteScore
    [ ("beat", VInt 4); ("column", VInt 2); ("holdNoteScore", VStr "None");
      ("tapNoteScore", VStr "W1"); ("offset", VInt 0) ].

(** Keyword arguments of a chart upload given as nested raw mappings. *)
Definition upload_kwargs : dict :=
  [ ("hash", VStr "c0ffee");
    ("meter", VInt 9);
    ("playMode", VStr "Single");
    ("stepData", VStr "#NOTES");
    ("stepArtist", VStr "someone");
    ("song", VDict full_song);
    ("score", VDict score_kwargs);
    ("group", VStr "Pack");
    ("cabSide", VInt 0);
    ("speedMod", VStr "C500");
    ("musicRate", VInt 1);
    ("modsTurn", VStr "None");
    ("modsTransform", VStr "None");
    ("modsOther", VList []);
    ("noteSkin", VStr "default");
    ("perspective", VStr "Overhead");
    ("timingWindows", VDict full_timing);
    ("inputEvents", VList [sample_event]);
    ("noteScoresWithBeats", VList [sample_note]) ].

Definition value_of (r : result value) : value :=
  match r with
  | Ok v => v
  | Raise _ => VNone
  end.

Definition attrs_of (v : value) : dict :=
  match v with
  | VInst _ attrs => attrs
  | _ => []
  end.

Definition sample_upload : value :=
  Eval vm_compute in value_of (construct ChartUpload upload_kwargs).

Definition player_kwargs : dict :=
  [ ("nickname", VStr "ann"); ("_id", VStr "p1"); ("rfidUid", VStr "04a1") ].

Definition sample_player : value :=
  Eval vm_compute in value_of (construct Player player_kwargs).


(** [upload_kwargs] without [song], [score] and [timingWindows]. *)
Definition upload_kwargs_flat : dict :=
  filter (fun kv => negb (isinstance_dict (snd kv))) upload_kwargs.

(** ** Notions and samples for [getMeta] and [get_player] *)

(** The double quote, for JSON texts. *)
Definition dq : string := String (ascii_of_nat 34) EmptyString.

(** The text of the JSON object with the members [theme] and [volume]. *)
Definition meta_text : string :=
  "{" ++ dq ++ "theme" ++ dq ++ ": " ++ dq ++ "dark" ++ dq ++ ", "
      ++ dq ++ "volume" ++ dq ++ ": 7}".

(** A decoder that knows the two documents of the examples below and takes
    every other text as malformed. *)
Definition sample_decode (s : string) : option value :=
  if String.eqb s "{}" then Some (VDict [])
  else if String.eqb s meta_text
       then Some (VDict [("theme", VStr "dark"); ("volume", VInt 7)])
       else None.

(** [data['data']['Players']['docs']] *)
Definition players_docs (data : value) : result value :=
  d <- getitem data "data" ;;
  p <- getitem d "Players" ;;
  getitem p "docs".

(** The answer to a [Players] query that matched [docs]. *)
Definition players_response (docs : list value) : value :=
  VDict [("data", VDict [("Players", VDict [("docs", VList docs)])])].

Definition player_doc (id nick : string) : value :=
  VDict [ ("_id", VStr id); ("nickname", VStr nick); ("shortNickname", VStr nick);
          ("avatarIconUrl", VNone); ("playerLevel", VInt 3);
          ("metaData", VStr meta_text) ].

(** A service whose every [Players] query matches [docs]. *)
Definition players_service (docs : list value) : service :=
  fun _ req =>
    match req with
    | QPlayers _ => Ok (players_response docs)
    | _ => Raise (Exception "unexpected request")
    end.

(** ** Notions and samples for the paging loop *)

(** The query of one turn of the loop. *)
Definition scores_request (playerId : value) (offset : Z) : request :=
  QScores 10 offset [("player", playerId)].

(** [scoreResult['data']['Scores']] *)
Definition scores_of (scoreResult : value) : result value :=
  d <- getitem scoreResult "data" ;;
  getitem d "Scores".

(** The answer is a page carrying the list [docs] and a [totalDocs]. *)
Definition page (scoreResult : value) (docs : list value) : Prop :=
  exists sc total,
    scores_of scoreResult = Ok sc
    /\ getitem sc "docs" = Ok (VList docs)
    /\ getitem sc "totalDocs" = Ok total.

(** The service answers every score query of the player with a page that
    is not empty. *)
Definition never_empty (srv : service) (playerId : value) : Prop :=
  forall h offset,
    exists scoreResult docs,
      srv h (scores_request playerId offset) = Ok scoreResult
      /\ page scoreResult docs
      /\ docs <> [].

(** The service honours the page size the query asks for. *)
Definition pages_of_ten (srv : service) (playerId : value) : Prop :=
  forall h offset scoreResult docs,
    srv h (scores_request playerId offset) = Ok scoreResult ->
    page scoreResult docs ->
    (List.length docs <= 10)%nat.

(** [n] offsets from [offset] on, ten apart. *)
Fixpoint offsets (n : nat) (offset : Z) : list Z :=
  match n with
  | O => []
  | S n' => offset :: offsets n' (offset + 10)
  end.

Definition scores_response (total : nat) (docs : list value) : value :=
  VDict [("data",
          VDict [("Scores",
                  VDict [("totalDocs", VInt (Z.of_nat total));
                         ("docs", VList docs)])])].

(** A service holding the score documents [docs], newest first, that
    serves the slice a query asks for. *)
Definition paged_service (docs : list value) : service :=
  fun _ req =>
    match req with
    | QScores limit offset _ =>
        Ok (scores_response (List.length docs)
              (firstn (Z.to_nat limit) (skipn (Z.to_nat offset) docs)))
    | _ => Raise (Exception "unexpected request")
    end.

(** A service that has ten more score documents at every offset. *)
Definition endless_service : service :=
  fun _ req =>
    match req with
    | QScores limit offset _ =>
        Ok (scores_response 1000
              (map (fun i => VDict [("_id", VInt (offset + Z.of_nat i))])
                   (seq 0 (Z.to_nat limit))))
    | _ => Raise (Exception "unexpected request")
    end.

Definition sample_scores (n : nat) : list value :=
  map (fun i => VDict [ ("_id", VInt (Z.of_nat i));
                        ("scoreValue", VInt (Z.of_nat (1000 * i)));
                        ("stepChart", VDict [("_id", VStr "chart")]) ])
      (seq 1 n).

(** ** Notions and samples for [post_score] *)



(** The namespace of a class object whose body only sets [__fields__]. *)
Definition fields_namespace (c : class) : dict :=
  [ ("__module__", VStr "padmiss.api");
    ("__fields__", VDict (cls_fields c));
    ("__doc__", VNone) ].

Definition sample_api : TournamentApi :=
  {| url := "https://api.padmiss.com"; key := Some (VStr "cab-key") |}.

Definition dict_of (r : result dict) : dict :=
  match r with
  | Ok d => d
  | Raise _ => []
  end.

(** [sample_upload] with the [misses] of its score breakdown set to [None]. *)
Definition upload_without_misses : value :=
  Eval vm_compute in
    value_of
      (construct ChartUpload
         (setitem "score"
            (VDict (setitem "scoreBreakdown"
                      (VDict (setitem "misses" VNone full_breakdown))
                      score_kwargs))
            upload_kwargs)).

(** ** The client object: TournamentApi.__init__ *)

(** [config.webserver]: the address the cabinet's own web server listens
    on.  The port is an integer. *)
Record WebServer : Type := {
  host : value;
  port : Z
}.

(** What [TournamentApi] is built from: a bare URL string, or a
    configuration object with [padmiss_api_url], [api_key] and, possibly,
    [webserver]. *)
Inductive config : Type :=
| ConfigUrl (url : string)
| ConfigObj (padmiss_api_url : string) (api_key : value) (webserver : option WebServer).

(** The attributes of a [TournamentApi] instance: [url] and [key] (in
    [api]), [config] and [auth]. *)
Record Client : Type := {
  api : TournamentApi;
  cfg : config;
  auth : value
}.

(** [TournamentApi.__init__]: [key] is not set for a bare URL. *)
Definition TournamentApi_init (c : config) : Client :=
  match c with
  | ConfigUrl u =>
      {| api := {| url := u; key := None |}; cfg := c; auth := VNone |}
  | ConfigObj u k _ =>
      {| api := {| url := u; key := Some k |}; cfg := c; auth := VNone |}
  end.

(** [self.auth = j] *)
Definition set_auth (self : Client) (j : value) : Client :=
  {| api := api self; cfg := cfg self; auth := j |}.

(** [prefix + v] for a string literal [prefix]. *)
Definition str_add (prefix : string) (v : value) : result string :=
  match v with
  | VStr s => Ok (prefix ++ s)%string
  | _ => Raise TypeError
  end.

(** [str(z)] for an integer. *)
Definition str_int (z : Z) : string := NilZero.string_of_int (Z.to_int z).

(** The check both [authenticate] and [register_cab] make on the decoded
    answer [j]: [if j['success'] != True: raise Exception(prefix + j['message'])]. *)
Definition check_success (prefix : string) (j : value) : result unit :=
  success <- getitem j "success" ;;
  if ne_True success
  then message <- getitem j "message" ;;
       text <- str_add prefix message ;;
       Raise (Exception text)
  else Ok tt.

(** ** TournamentApi.authenticate *)

(** The call returns its result, the client as the call leaves it, and the
    requests sent so far. *)
Definition authenticate (srv : service) (username password : value)
    (self : Client) (h : list request) : result value * Client * list request :=
  match send srv (Post (url (api self) ++ "/authenticate")
                    (dict_of_items [("email", username); ("password", password)])) h with
  | (Raise e, h') => (Raise e, self, h')
  | (Ok j, h') =>
      match check_success "Authentication failed: " j with
      | Raise e => (Raise e, self, h')
      | Ok _ => (Ok j, set_auth self j, h')
      end
  end.

(** ** TournamentApi.register_cab *)

Definition register_cab (srv : service) (name : value) (self : Client) : io value :=
  if negb (truthy (auth self))
  then lift (Raise (Exception "You need to authenticate first"))
  else
    token <~ lift (getitem (auth self) "token") ;;
    j <~ send srv (Post (url (api self) ++ "/api/arcade-cabs/create")
                     (dict_of_items [("token", token); ("name", name)])) ;;
    _ <~ lift (check_success "Cab creation failed: " j) ;;
    io_ret j.

(** ** TournamentApi.broadcast *)

(** The request [broadcast] builds. *)
Definition broadcast_request (self : Client) : result request :=
  apiKey <- match key (api self) with
            | Some k => Ok k
            | None => Raise (AttributeError "key")
            end ;;
  match cfg self with
  | ConfigObj u _ (Some ws) =>
      ip <- match host ws with
            | VStr s => Ok (s ++ ":" ++ str_int (port ws))%string
            | _ => Raise TypeError
            end ;;
      Ok (Post (u ++ "api/arcade-cabs/broadcast")
            (dict_of_items [("apiKey", apiKey); ("ip", VStr ip)]))
  | _ => Raise (AttributeError "webserver")
  end.

(** The body of the [try]. *)
Definition broadcast_try (srv : service) (self : Client) : io value :=
  req <~ lift (broadcast_request self) ;;
  j <~ send srv req ;;
  success <~ lift (getitem j "success") ;;
  if ne_True success
  then lift (Raise (Exception "No ok status"))
  else io_ret (VBool true).

(** [try: ... except Exception: return False] *)
Definition broadcast (srv : service) (self : Client) : io value :=
  fun h =>
    match broadcast_try srv self h with
    | (Ok v, h') => (Ok v, h')
    | (Raise _, h') => (Ok (VBool false), h')
    end.

(** ** TournamentApi.get_last_sore, on the decoded answer *)

Definition last_score_of_response (scores : value) : result value :=
  has_data <- contains "data" scores ;;
  none <- (if negb has_data then Ok true
           else
             docs <- (d <- getitem scores "data" ;;
                      s <- getitem d "Scores" ;;
                      getitem s "docs") ;;
             Ok (negb (truthy docs))) ;;
  if (none : bool) then Ok VNone
  else
    docs <- (d <- getitem scores "data" ;;
             s <- getitem d "Scores" ;;
             getitem s "docs") ;;
    n <- len docs ;;
    if Nat.ltb 0 n then getitem0 docs else Ok VNone.

(** ** TournamentApi.get_score_history: the step charts *)

(** Everything the client asks of the service: the requests above, the
    query of [get_last_sore] and the step-chart lookup. *)
Inductive call : Type :=
| Sent (r : request)
| QLastScore (queryString : dict)
| QStepchart (id : string).

Definition backend : Type := list call -> call -> result value.

(** The service a backend is for the calls of [request], after the calls
    [h]. *)
Definition service_of (b : backend) (h : list call) : service :=
  fun sent r => b (h ++ map Sent sent) (Sent r).

Definition get_last_sore (b : backend) (playerId : value) (h : list call)
  : result value * list call :=
  match json_dumps [("player", playerId)] with
  | Raise e => (Raise e, h)
  | Ok queryString =>
      let q := QLastScore queryString in
      (scores <- b h q ;; last_score_of_response scores, h ++ [q])
  end.

(** [score['stepChart']['_id']] *)
Definition chart_id (score : value) : result value :=
  sc <- getitem score "stepChart" ;;
  getitem sc "_id".

(** A decoded JSON value can be a dictionary key unless it is an array or
    an object. *)
Definition hashable (v : value) : bool :=
  match v with
  | VList _ | VDict _ => false
  | _ => true
  end.

(** [a == b] on dictionary keys: strings by content, [None] with itself,
    booleans and integers as numbers; record instances and classes, which
    no decoded document holds, count as distinct. *)
Definition key_eqb (a b : value) : bool :=
  match a, b with
  | VStr s, VStr t => String.eqb s t
  | VNone, VNone => true
  | VBool x, VBool y => Bool.eqb x y
  | VInt x, VInt y => Z.eqb x y
  | VBool x, VInt y => Z.eqb (if x then 1 else 0) y
  | VInt x, VBool y => Z.eqb x (if y then 1 else 0)
  | _, _ => false
  end.

(** The first loop: the keys of [songs], in the order they were first
    stored. *)
Fixpoint chart_keys (scores : list value) (songs : list value) : result (list value) :=
  match scores with
  | [] => Ok songs
  | score :: rest =>
      id <- chart_id score ;;
      if hashable id
      then chart_keys rest (if existsb (key_eqb id) songs then songs else songs ++ [id])
      else Raise TypeError
  end.

(** [list(filter(lambda s: s['stepChart']['_id'] == id, scores))] *)
Fixpoint scores_of_chart (id : string) (scores : list value) : result (list value) :=
  match scores with
  | [] => Ok []
  | s :: rest =>
      v <- chart_id s ;;
      tl <- scores_of_chart id rest ;;
      Ok (if key_eqb v (VStr id) then s :: tl else tl)
  end.

(** [chart['scores'] = l] *)
Definition set_scores (chart : value) (l : list value) : result value :=
  match chart with
  | VDict d => Ok (VDict (setitem "scores" (VList l) d))
  | _ => Raise TypeError
  end.

(** One turn of the second loop, on the decoded answer to the lookup. *)
Definition bundle_of_response (r : value) (id : string) (scores : list value)
  : result value :=
  d <- getitem r "data" ;;
  chart <- getitem d "Stepchart" ;;
  l <- scores_of_chart id scores ;;
  set_scores chart l.

(** The second loop over [songs.keys()]; [songs] holds the bundles stored
    so far. *)
Fixpoint populate (b : backend) (scores : list value) (ids : list value)
    (songs : dict) (h : list call) : result dict * list call :=
  match ids with
  | [] => (Ok songs, h)
  | VStr id :: rest =>
      match b h (QStepchart id) with
      | Raise e => (Raise e, h ++ [QStepchart id])
      | Ok r =>
          match bundle_of_response r id scores with
          | Raise e => (Raise e, h ++ [QStepchart id])
          | Ok bundle =>
              populate b scores rest (setitem id bundle songs) (h ++ [QStepchart id])
          end
      end
  | _ :: _ => (Raise TypeError, h)
  end.

Definition get_score_history (b : backend) (fuel : nat) (playerId : value)
    (h : list call) : option (result value * list call) :=
  match get_score_history_scores (service_of b h) fuel playerId [] with
  | None => None
  | Some (Raise e, sent) => Some (Raise e, h ++ map Sent sent)
  | Some (Ok scores, sent) =>
      let h1 := h ++ map Sent sent in
      match chart_keys scores [] with
      | Raise e => Some (Raise e, h1)
      | Ok ids =>
          match populate b scores ids [] h1 with
          | (Raise e, h2) => Some (Raise e, h2)
          | (Ok songs, h2) => Some (Ok (VDict songs), h2)
          end
      end
  end.

(** ** Notions and samples for the step charts of [get_score_history] *)

(** The scores of [scores] whose chart has the identifier [id]. *)
Definition with_chart (id : string) (scores : list value) : list value :=
  filter (fun s => match chart_id s with
                   | Ok v => key_eqb v (VStr id)
                   | Raise _ => false
                   end) scores.

(** [bundle['scores']], when it is a list. *)
Definition bundle_scores (bundle : value) : list value :=
  match getitem bundle "scores" with
  | Ok (VList l) => l
  | _ => []
  end.

Definition score_doc (n : Z) (chart : string) : value :=
  VDict [ ("_id", VInt n); ("scoreValue", VInt (1000 * n));
          ("stepChart", VDict [("_id", VStr chart)]) ].

(** A backend that holds [docs] as score documents and knows every step
    chart. *)
Definition charts_backend (docs : list value) : backend :=
  fun _ c =>
    match c with
    | Sent r => paged_service docs [] r
    | QStepchart id =>
        Ok (VDict [("data",
                    VDict [("Stepchart",
                            VDict [ ("song", VDict [("title", VStr id)]);
                                    ("difficultyLevel", VInt 9);
                                    ("scores", VNone) ])])])
    | QLastScore _ => Raise (Exception "unexpected request")
    end.

Definition three_scores : list value :=
  [ score_doc 1 "chartA"; score_doc 2 "chartB"; score_doc 3 "chartA" ].

(** ** Notions and samples for the client's other calls *)



Definition sample_config : config :=
  ConfigObj "https://api.padmiss.com/" (VStr "cab-key")
    (Some {| host := VStr "192.168.1.20"; port := 8080 |}).

(** A service that accepts the password ["s3cret"] and nothing else. *)
Definition auth_service : service :=
  fun _ req =>
    match req with
    | Post _ body =>
        match get "password" body, get "token" body with
        | Some (VStr "s3cret"), _ =>
            Ok (VDict [("success", VBool true); ("token", VStr "tok-1")])
        | _, Some (VStr "tok-1") =>
            Ok (VDict [("success", VBool true); ("cab", VStr "created")])
        | _, _ =>
            Ok (VDict [("success", VBool false); ("message", VStr "denied")])
        end
    | _ => Raise (Exception "unexpected request")
    end.

(** A service that is down: every request raises. *)
Definition down_service : service :=
  fun _ _ => Raise (Exception "connection refused").

(** A service that answers every request with [success] set. *)
Definition ok_service : service :=
  fun _ _ => Ok (VDict [("success", VBool true)]).

(** An input event as a decoded document has it, not yet a record. *)
Definition raw_event : value :=
  VDict [ ("beat", VInt 4); ("column", VInt 2); ("released", VBool false) ].

(** [upload_kwargs] with its input events given as raw mappings. *)
Definition upload_kwargs_raw_events : dict :=
  setitem "inputEvents" (VList [raw_event]) upload_kwargs.

(** A [Players] document that carries no [_id]. *)
Definition anonymous_doc : value :=
  VDict [ ("nickname", VStr "ann"); ("playerLevel", VInt 3) ].






(** * Properties *)

(** ** Dictionaries *)

Lemma get_setitem (k k' : string) (v : value) (d : dict) :
  get k (setitem k' v d) = if String.eqb k k' then Some v else get k d.
Proof.
  induction d as [|[k0 v0] d IH]; simpl.
  - reflexivity.
  - destruct (String.eqb k' k0) eqn:E; simpl.
    + apply String.eqb_eq in E; subst k0.
      destruct (String.eqb k k'); reflexivity.
    + destruct (String.eqb k k0) eqn:E0.
      * apply String.eqb_eq in E0; subst k0.
        rewrite String.eqb_sym, E. reflexivity.
      * exact IH.
Qed.

Lemma get_Some_In (k : string) (v : value) (d : dict) :
  get k d = Some v -> In (k, v) d.
Proof.
  induction d as [|[k0 v0] d IH]; simpl; [discriminate|].
  destruct (String.eqb k k0) eqn:E.
  - apply String.eqb_eq in E; subst. intros [= ->]. now left.
  - intros H. right. now apply IH.
Qed.

Lemma get_None_iff (k : string) (d : dict) :
  get k d = None <-> ~ In k (keys d).
Proof.
  induction d as [|[k0 v0] d IH]; simpl.
  - split; [intros _ []|reflexivity].
  - destruct (String.eqb k k0) eqn:E.
    + apply String.eqb_eq in E; subst. split; [discriminate|].
      intros H. exfalso. apply H. now left.
    + apply String.eqb_neq in E. rewrite IH. split.
      * intros H [->|H']; [now apply E|now apply H].
      * intros H H'. apply H. now right.
Qed.

Lemma get_Some_keys (k : string) (v : value) (d : dict) :
  get k d = Some v -> In k (keys d).
Proof.
  intros H. apply get_Some_In in H.
  unfold keys. now apply (in_map fst) in H.
Qed.

Lemma keys_In_get (k : string) (d : dict) :
  In k (keys d) -> exists v, get k d = Some v.
Proof.
  intros H. destruct (get k d) as [v|] eqn:E; [now exists v|].
  apply get_None_iff in E. contradiction.
Qed.

Lemma NoDup_In_get (k : string) (v : value) (d : dict) :
  NoDup (keys d) -> In (k, v) d -> get k d = Some v.
Proof.
  induction d as [|[k0 v0] d IH]; simpl; [intros _ []|].
  intros ND [H|H].
  - injection H as -> ->. now rewrite String.eqb_refl.
  - inversion ND as [|? ? Hnot ND']; subst.
    destruct (String.eqb k k0) eqn:E.
    + apply String.eqb_eq in E; subst. exfalso. apply Hnot.
      unfold keys. now apply (in_map fst) in H.
    + now apply IH.
Qed.

Lemma keys_setitem (k k' : string) (v : value) (d : dict) :
  In k (keys (setitem k' v d)) <-> k = k' \/ In k (keys d).
Proof.
  split.
  - intros H. apply keys_In_get in H as [x Hx].
    rewrite get_setitem in Hx.
    destruct (String.eqb k k') eqn:E.
    + left. now apply String.eqb_eq.
    + right. now apply get_Some_keys in Hx.
  - intros H.
    destruct (get k (setitem k' v d)) as [x|] eqn:Hx.
    + now apply get_Some_keys in Hx.
    + rewrite get_setitem in Hx.
      destruct (String.eqb k k') eqn:E; [discriminate|].
      apply String.eqb_neq in E. apply get_None_iff in Hx.
      destruct H; contradiction.
Qed.

Lemma setitem_fresh (k : string) (v : value) (d : dict) :
  ~ In k (keys d) -> setitem k v d = d ++ [(k, v)].
Proof.
  induction d as [|[k0 v0] d IH]; simpl; intros H; [reflexivity|].
  destruct (String.eqb k k0) eqn:E.
  - apply String.eqb_eq in E; subst. exfalso. apply H. now left.
  - f_equal. apply IH. intros H'. apply H. now right.
Qed.

Lemma keys_setitem_present (k : string) (v : value) (d : dict) :
  In k (keys d) -> keys (setitem k v d) = keys d.
Proof.
  induction d as [|[k0 v0] d IH]; simpl; intros H; [contradiction|].
  destruct (String.eqb k k0) eqn:E; simpl.
  - reflexivity.
  - f_equal. apply IH. destruct H as [->|H]; [|exact H].
    now rewrite String.eqb_refl in E.
Qed.

Lemma NoDup_setitem (k : string) (v : value) (d : dict) :
  NoDup (keys d) -> NoDup (keys (setitem k v d)).
Proof.
  intros ND. destruct (in_dec string_dec k (keys d)) as [Hin|Hout].
  - now rewrite keys_setitem_present.
  - rewrite setitem_fresh by exact Hout.
    unfold keys. rewrite map_app. simpl.
    apply NoDup_app; [exact ND|repeat constructor; intros []|].
    intros x Hx [<-|[]]. now apply Hout.
Qed.

Lemma In_setitem (kv : string * value) (k : string) (v : value) (d : dict) :
  In kv (setitem k v d) -> kv = (k, v) \/ In kv d.
Proof.
  induction d as [|[k0 v0] d IH]; simpl.
  - intros [<-|[]]. now left.
  - destruct (String.eqb k k0) eqn:E; simpl.
    + apply String.eqb_eq in E; subst.
      intros [<-|H]; [now left|right; now right].
    + intros [<-|H]; [right; now left|].
      destruct (IH H) as [->|H']; [now left|right; now right].
Qed.


Lemma keys_update (k : string) (d e : dict) :
  In k (keys (update d e)) <-> In k (keys d) \/ In k (keys e).
Proof.
  unfold update. revert d.
  induction e as [|[k0 v0] e IH]; intros d; simpl.
  - tauto.
  - rewrite IH, keys_setitem. simpl. intuition congruence.
Qed.

Lemma NoDup_update (d e : dict) :
  NoDup (keys d) -> NoDup (keys (update d e)).
Proof.
  unfold update. revert d.
  induction e as [|[k0 v0] e IH]; intros d ND; simpl; [exact ND|].
  apply IH. now apply NoDup_setitem.
Qed.

Lemma In_update (kv : string * value) (d e : dict) :
  In kv (update d e) -> In kv d \/ In kv e.
Proof.
  unfold update. revert d.
  induction e as [|[k0 v0] e IH]; intros d; simpl; [now left|].
  intros H. destruct (IH _ H) as [H'|H']; [|right; now right].
  apply In_setitem in H'. simpl in H'. destruct H' as [->|H']; [right|]; now left.
Qed.

Lemma update_fresh (d e : dict) :
  NoDup (keys (d ++ e)) -> update d e = d ++ e.
Proof.
  unfold update. revert d.
  induction e as [|[k0 v0] e IH]; intros d ND; simpl.
  - now rewrite app_nil_r.
  - assert (Hout : ~ In k0 (keys d)).
    { unfold keys in *. rewrite map_app in ND. simpl in ND.
      apply NoDup_remove_2 in ND. intros H. apply ND.
      apply in_or_app. now left. }
    rewrite setitem_fresh by exact Hout.
    rewrite IH; rewrite <- app_assoc; [reflexivity|exact ND].
Qed.

Lemma dict_of_items_NoDup (items : dict) :
  NoDup (keys items) -> dict_of_items items = items.
Proof.
  intros ND. unfold dict_of_items. now rewrite update_fresh.
Qed.

Lemma NoDup_dict_of_items (items : dict) : NoDup (keys (dict_of_items items)).
Proof. apply NoDup_update. constructor. Qed.

(** Case analysis on membership in a list that is given explicitly: [tac]
    closes the goal for each element, from the equation [H] with it. *)
Ltac in_cases H tac :=
  simpl in H;
  repeat (destruct H as [H|H]; [tac H|]);
  try contradiction.

(** ** Base.__init__ *)

Lemma nodupb_NoDup (l : list string) : nodupb l = true -> NoDup l.
Proof.
  induction l as [|x l IH]; simpl; intros H; constructor.
  - apply andb_prop in H as [H _]. intros Hin.
    apply negb_true_iff in H.
    assert (existsb (String.eqb x) l = true); [|congruence].
    apply existsb_exists. exists x. split; [exact Hin|apply String.eqb_refl].
  - apply andb_prop in H as [_ H]. now apply IH.
Qed.




Lemma construct_unfold (c : class) (kwargs : dict) :
  construct c kwargs =
    (if mem "self" kwargs then Raise TypeError
     else self <- init_fields call_spec (cls_fields c) kwargs [] ;; Ok (VInst c self)).
Proof. destruct c; reflexivity. Qed.

(** A mapping with a key named [self] is refused. *)
Lemma construct_self (c : class) (kwargs : dict) :
  mem "self" kwargs = true -> construct c kwargs = Raise TypeError.
Proof. intros H. now rewrite construct_unfold, H. Qed.

(** Without such a key the call is the loop over the fields. *)
Lemma construct_loop (c : class) (kwargs : dict) :
  mem "self" kwargs = false ->
  construct c kwargs =
    (self <- init_fields call_spec (cls_fields c) kwargs [] ;; Ok (VInst c self)).
Proof. intros H. now rewrite construct_unfold, H. Qed.

Lemma construct_Ok_self (c : class) (kwargs : dict) (v : value) :
  construct c kwargs = Ok v -> mem "self" kwargs = false.
Proof.
  rewrite construct_unfold. destruct (mem "self" kwargs); [discriminate|reflexivity].
Qed.

Lemma construct_Ok_inv (c : class) (kwargs : dict) (v : value) :
  construct c kwargs = Ok v ->
  exists attrs, v = VInst c attrs
                /\ init_fields call_spec (cls_fields c) kwargs [] = Ok attrs.
Proof.
  intros H. rewrite (construct_loop _ _ (construct_Ok_self _ _ _ H)) in H.
  destruct (init_fields call_spec (cls_fields c) kwargs []) as [attrs|e]; simpl in H.
  - injection H as <-. now exists attrs.
  - discriminate.
Qed.

Section InitFields.
Variable call : value -> value -> result value.
Variable kwargs : dict.


Lemma init_field_missing (k : string) :
  get k kwargs = None ->
  init_field call k VNone kwargs = Raise (TournamentApiError (VStr (missing_msg k))).
Proof. unfold init_field. now intros ->. Qed.

(** A supplied value goes to the attribute as it is when it is not a
    mapping, or when the field's spec is false in a boolean context. *)
Lemma init_field_supplied (k : string) (c v : value) :
  get k kwargs = Some v -> truthy c && isinstance_dict v = false ->
  init_field call k c kwargs = Ok v.
Proof. unfold init_field. intros -> Hv. simpl. now rewrite Hv. Qed.

(** A required field left out makes the loop raise, at that field or
    before it. *)
Lemma init_fields_missing (fields : dict) (k : string) :
  In (k, VNone) fields -> get k kwargs = None ->
  forall self, exists e, init_fields call fields kwargs self = Raise e.
Proof.
  intros Hin Hget.
  induction fields as [|[k0 c0] fields IH]; intros self; [contradiction|].
  simpl. destruct Hin as [[= -> ->]|Hin].
  - rewrite init_field_missing by exact Hget. simpl. eauto.
  - destruct (init_field call k0 c0 kwargs) as [val|e]; simpl; eauto.
Qed.

(** The loop raises at the first required field left out when the turns
    of the fields before it succeed. *)
Lemma init_fields_first_missing (pre post : dict) (k : string) :
  (forall k0 c0, In (k0, c0) pre -> exists v, init_field call k0 c0 kwargs = Ok v) ->
  get k kwargs = None ->
  forall self,
    init_fields call (pre ++ (k, VNone) :: post) kwargs self
    = Raise (TournamentApiError (VStr (missing_msg k))).
Proof.
  intros Hpre Hget.
  induction pre as [|[k0 c0] pre IH]; intros self; simpl.
  - now rewrite init_field_missing.
  - destruct (Hpre k0 c0 (or_introl eq_refl)) as [v ->]. simpl.
    apply IH. intros k1 c1 Hin. apply Hpre. now right.
Qed.


Lemma init_fields_frame (fields : dict) (k : string) :
  ~ In k (keys fields) ->
  forall self self',
    init_fields call fields kwargs self = Ok self' -> get k self' = get k self.
Proof.
  induction fields as [|[k0 c0] fields IH]; intros Hout self self'; simpl.
  - now intros [= ->].
  - destruct (init_field call k0 c0 kwargs) as [val|e]; simpl; [|discriminate].
    intros H. rewrite (IH (fun Hin => Hout (or_intror Hin)) _ _ H).
    rewrite get_setitem.
    destruct (String.eqb k k0) eqn:E; [|reflexivity].
    apply String.eqb_eq in E; subst. exfalso. apply Hout. now left.
Qed.

(** After the loop every schema field is an attribute, holding what its
    turn computed. *)
Lemma init_fields_get (fields : dict) :
  NoDup (keys fields) ->
  forall self self',
    init_fields call fields kwargs self = Ok self' ->
    forall k c, In (k, c) fields ->
      exists val, init_field call k c kwargs = Ok val /\ get k self' = Some val.
Proof.
  induction fields as [|[k0 c0] fields IH]; intros ND self self' H k c Hin;
    [contradiction|].
  simpl in H, ND. inversion ND as [|? ? Hnot ND']; subst.
  destruct (init_field call k0 c0 kwargs) as [val|e] eqn:E; simpl in H;
    [|discriminate].
  destruct Hin as [[= -> ->]|Hin].
  - exists val. split; [exact E|].
    rewrite (init_fields_frame _ _ Hnot _ _ H), get_setitem.
    now rewrite String.eqb_refl.
  - exact (IH ND' _ _ H k c Hin).
Qed.

(** A supplied value on which no spec of its field is called ends up as
    the attribute. *)
Lemma init_fields_supplied (fields : dict) (k : string) (v : value) :
  get k kwargs = Some v ->
  (forall c, In (k, c) fields -> truthy c && isinstance_dict v = false) ->
  forall self self',
    init_fields call fields kwargs self = Ok self' ->
    In k (keys fields) \/ get k self = Some v ->
    get k self' = Some v.
Proof.
  intros Hget.
  induction fields as [|[k0 c0] fields IH]; intros Hv self self'; simpl.
  - intros [= ->] [[]|H]. exact H.
  - destruct (init_field call k0 c0 kwargs) as [val|e] eqn:E; simpl;
      [|discriminate].
    intros H Hor.
    apply (IH (fun c Hin => Hv c (or_intror Hin)) _ _ H).
    destruct (String.eqb k k0) eqn:Ek.
    + apply String.eqb_eq in Ek; subst k0. right.
      rewrite (init_field_supplied _ _ _ Hget (Hv c0 (or_introl eq_refl))) in E.
      injection E as <-.
      rewrite get_setitem. now rewrite String.eqb_refl.
    + destruct Hor as [[Heq|Hin]|Hs].
      * subst. now rewrite String.eqb_refl in Ek.
      * now left.
      * right. rewrite get_setitem, Ek. exact Hs.
Qed.
End InitFields.








(** A mapping supplied for a field whose spec is true in a boolean context
    without being a class makes [__init__] call that spec. *)
Lemma init_field_calls_default (kwargs : dict) (k : string) (c : value) (d : dict) :
  get k kwargs = Some (VDict d) ->
  truthy c = true ->
  (forall c', c <> VClass c') ->
  init_field call_spec k c kwargs = Raise TypeError.
Proof.
  unfold init_field. intros -> Ht Hc. simpl. rewrite Ht. simpl.
  destruct c; try reflexivity. now destruct (Hc c).
Qed.

(** C7, at the failing input.  [metaData] has the default ["{}"], a
    non-empty string: a mapping supplied for it is not assigned but makes
    construction raise [TypeError], whereas the same mapping supplied for
    [shortNickname], whose default is the empty string, is assigned as it
    is. *)
Theorem C7_mapping_for_metaData :
  construct Player (setitem "metaData" (VDict []) player_kwargs) = Raise TypeError
  /\ init_field call_spec "metaData" (VStr "{}")
       (setitem "metaData" (VDict []) player_kwargs) = Raise TypeError
  /\ exists attrs,
       construct Player (setitem "shortNickname" (VDict []) player_kwargs)
       = Ok (VInst Player attrs)
       /\ get "shortNickname" attrs = Some (VDict []).
Proof.
  split; [reflexivity|]. split; [reflexivity|].
  eexists. split; [vm_compute; reflexivity|reflexivity].
Qed.



(** ** Player.getMeta *)

(** Every constructed [Player] has a [metaData] attribute. *)
Lemma Player_has_metaData (kwargs : dict) (self : value) :
  construct Player kwargs = Ok self ->
  exists metaData, getattr self "metaData" = Ok metaData.
Proof.
  intros H. apply construct_Ok_inv in H as (attrs & -> & Hinit).
  destruct (init_fields_get _ _ _ (nodupb_NoDup (keys (cls_fields Player)) eq_refl)
              _ _ Hinit "metaData" (VStr "{}")) as (val & _ & Hget).
  - simpl. do 5 right. now left.
  - exists val. simpl. now rewrite Hget.
Qed.

(** C8, as amended.  [getMeta] returns [None] at once when [metaData] is
    [None]; when [metaData] is a text that decodes to a JSON object it
    returns the member stored under the field name, or [None] when there
    is none, and does not raise; it raises when [metaData] is a text that
    is not a JSON document, a text whose document is a number, a boolean
    or null, or a value other than [None] that is not a text. *)
Theorem C8_getMeta (decode : string -> option value)
    (self : value) (field : string) (metaData : value) :
  getattr self "metaData" = Ok metaData ->
  (metaData = VNone -> getMeta decode self field = Ok VNone)
  /\ (forall s d, metaData = VStr s -> decode s = Some (VDict d) ->
        getMeta decode self field
        = Ok (match get field d with Some v => v | None => VNone end))
  /\ (forall s, metaData = VStr s -> decode s = None ->
        getMeta decode self field = Raise ValueError)
  /\ (forall s x, metaData = VStr s -> decode s = Some x ->
        (x = VNone \/ (exists b, x = VBool b) \/ (exists z, x = VInt z)) ->
        getMeta decode self field = Raise TypeError)
  /\ (metaData <> VNone -> (forall s, metaData <> VStr s) ->
        getMeta decode self field = Raise TypeError).
Proof.
  intros Hattr. unfold getMeta. rewrite Hattr. simpl.
  repeat split.
  - now intros ->.
  - intros s d -> Hd. simpl. rewrite Hd. simpl. unfold mem.
    destruct (get field d); reflexivity.
  - intros s -> Hd. simpl. now rewrite Hd.
  - intros s x -> Hd Hx. simpl. rewrite Hd. simpl.
    destruct Hx as [->|[[b ->]|[z ->]]]; reflexivity.
  - intros Hn Hs. destruct metaData; try reflexivity.
    + now destruct Hn.
    + now destruct (Hs s).
Qed.

Lemma C8_getMeta_witness :
  getMeta sample_decode
    (value_of (construct Player (setitem "metaData" (VStr meta_text) player_kwargs)))
    "volume" = Ok (VInt 7)
  /\ getMeta sample_decode sample_player "volume" = Ok VNone
  /\ getMeta sample_decode
       (value_of (construct Player (setitem "metaData" VNone player_kwargs)))
       "volume" = Ok VNone.
Proof.
  split; [|split].
  - exact (proj1 (proj2 (C8_getMeta sample_decode
                           (value_of (construct Player
                                        (setitem "metaData" (VStr meta_text) player_kwargs)))
                           "volume" (VStr meta_text) eq_refl))
             meta_text [("theme", VStr "dark"); ("volume", VInt 7)] eq_refl eq_refl).
  - exact (proj1 (proj2 (C8_getMeta sample_decode sample_player "volume" (VStr "{}") eq_refl))
             "{}" [] eq_refl eq_refl).
  - exact (proj1 (C8_getMeta sample_decode
                    (value_of (construct Player (setitem "metaData" VNone player_kwargs)))
                    "volume" VNone eq_refl) eq_refl).
Defined.

(** C8 as stated fails: [getMeta] raises on a player whose [metaData] is
    the number 5 whatever the decoder and the field name, and on a player
    whose [metaData] is a text the decoder rejects. *)
Lemma C8_counterexample :
  (exists self,
     construct Player (setitem "metaData" (VInt 5) player_kwargs) = Ok self
     /\ forall decode field, getMeta decode self field = Raise TypeError)
  /\ (exists self,
        construct Player (setitem "metaData" (VStr "oops") player_kwargs) = Ok self
        /\ forall decode field,
             decode "oops" = None -> getMeta decode self field = Raise ValueError).
Proof.
  split; eexists; (split; [vm_compute; reflexivity|]).
  - reflexivity.
  - intros decode field H. unfold getMeta. simpl. now rewrite H.
Qed.

(** ** TournamentApi.get_player *)

Lemma json_dumps_Ok (filter : dict) :
  serialisable (VDict filter) = true -> json_dumps filter = Ok filter.
Proof. unfold json_dumps. now intros ->. Qed.

Lemma json_dumps_Raise (filter : dict) :
  serialisable (VDict filter) = false -> json_dumps filter = Raise TypeError.
Proof. unfold json_dumps. now intros ->. Qed.

Lemma serialisable_filter (playerId : value) :
  serialisable (VDict [("player", playerId)]) = serialisable playerId.
Proof. simpl. apply andb_true_r. Qed.

Lemma get_player_answer (srv : service) (playerId rfidUid nickname : value)
    (h : list request) (data : value) :
  serialisable (VDict (player_filter playerId rfidUid nickname)) = true ->
  srv h (QPlayers (player_filter playerId rfidUid nickname)) = Ok data ->
  get_player srv playerId rfidUid nickname h
  = (player_of_response data,
     h ++ [QPlayers (player_filter playerId rfidUid nickname)]).
Proof.
  intros Hs H. unfold get_player, io_bind, send, lift.
  rewrite (json_dumps_Ok _ Hs). now rewrite H.
Qed.

Lemma getitem_contains (v : value) (k : string) (x : value) :
  getitem v k = Ok x -> contains k v = Ok true.
Proof.
  destruct v as [ |b|z|s|l|dd|c0|c0 a0]; try discriminate.
  simpl. unfold mem. destruct (get k dd); [reflexivity|discriminate].
Qed.

Lemma players_docs_inv (data docs : value) :
  players_docs data = Ok docs ->
  exists d p,
    getitem data "data" = Ok d /\ getitem d "Players" = Ok p
    /\ getitem p "docs" = Ok docs
    /\ contains "data" data = Ok true /\ truthy p = true.
Proof.
  unfold players_docs. intros H.
  destruct (getitem data "data") as [d|] eqn:Hd; simpl in H; [|discriminate].
  destruct (getitem d "Players") as [p|] eqn:Hp; simpl in H; [|discriminate].
  exists d, p. repeat split; try assumption.
  - now apply (getitem_contains _ _ d).
  - destruct p as [ |b|z|s|l|dd|c0|c0 a0]; try discriminate. simpl in H.
    destruct dd; [discriminate|reflexivity].
Qed.

Lemma player_of_response_docs (data : value) (docs : list value) :
  players_docs data = Ok (VList docs) ->
  player_of_response data =
    match docs with
    | [doc] => instantiate Player doc
    | _ => Ok VNone
    end.
Proof.
  intros H. apply players_docs_inv in H as (d & p & Hd & Hp & Hdocs & Hc & Ht).
  unfold player_of_response. rewrite Hc, Hd. simpl. rewrite Hp. simpl.
  rewrite Ht, Hdocs. simpl.
  destruct docs as [|doc [|doc' docs]]; reflexivity.
Qed.

(** Hydrating a document that has no key named [self], carries
    [nickname] and [_id], and whose [metaData] is not a mapping. *)
Lemma construct_Player_doc (d : dict) :
  mem "self" d = false ->
  mem "nickname" d = true -> mem "_id" d = true ->
  (forall m, get "metaData" d <> Some (VDict m)) ->
  exists attrs,
    construct Player d = Ok (VInst Player attrs)
    /\ keys attrs = keys (cls_fields Player)
    /\ forall k v, In k (keys (cls_fields Player)) -> get k d = Some v ->
                   get k attrs = Some v.
Proof.
  unfold mem at 2 3. intros Hself Hn Hi Hm.
  destruct (get "nickname" d) as [vn|] eqn:En; [|discriminate].
  destruct (get "_id" d) as [vi|] eqn:Ei; [|discriminate].
  rewrite (construct_loop _ _ Hself). unfold Player at 1. simpl. unfold init_field.
  rewrite En, Ei. simpl.
  destruct (get "shortNickname" d) as [vs|] eqn:Es;
    destruct (get "avatarIconUrl" d) as [va|] eqn:Ea;
    destruct (get "rfidUid" d) as [vr|] eqn:Er;
    destruct (get "mountType" d) as [vt|] eqn:Et;
    destruct (get "metaData" d) as [vm|] eqn:Em; simpl;
    try (destruct vm as [ |b|z|s|l|dd|c0|c0 a0];
         try (now destruct (Hm dd)); simpl);
    (eexists; split; [reflexivity|]; split; [reflexivity|];
     intros k v Hin Hget; simpl in Hin;
     repeat (destruct Hin as [<-|Hin]; [simpl; congruence|]); contradiction).
Qed.

(** A document that leaves out [nickname] or [_id] is refused. *)
Lemma construct_Player_incomplete (d : dict) :
  mem "nickname" d = false \/ mem "_id" d = false ->
  exists e, construct Player d = Raise e.
Proof.
  intros H. rewrite construct_unfold.
  destruct (mem "self" d); [eauto|].
  assert (exists k, In (k, VNone) (cls_fields Player) /\ get k d = None)
    as (k & Hin & Hget).
  { unfold mem in H. destruct H as [H|H].
    - exists "nickname". split; [simpl; now left|].
      destruct (get "nickname" d); [discriminate|reflexivity].
    - exists "_id". split; [simpl; do 4 right; now left|].
      destruct (get "_id" d); [discriminate|reflexivity]. }
  destruct (init_fields_missing call_spec d _ k Hin Hget []) as [e ->].
  simpl. eauto.
Qed.

(** C9, as amended.  Once its query is sent and answered, [get_player]
    answers [None] when the response has no [data], when its [Players] is
    null or empty, when no document matched and when two or more matched.
    When exactly one document matched, the answer is what hydrating that
    document as a [Player] gives: an instance with the document's values
    when the document is a mapping that has no key named [self], carries
    [nickname] and [_id] and whose [metaData] is not a mapping; the error
    of the construction when the document is not a mapping, has a key
    named [self], or lacks [nickname] or [_id].  No other response yields
    an answer that is not [None]. *)
Theorem C9_get_player (srv : service) (playerId rfidUid nickname : value)
    (h : list request) (data : value) :
  serialisable (VDict (player_filter playerId rfidUid nickname)) = true ->
  srv h (QPlayers (player_filter playerId rfidUid nickname)) = Ok data ->
  let answer := fst (get_player srv playerId rfidUid nickname h) in
  (contains "data" data = Ok false -> answer = Ok VNone)
  /\ (forall d p, getitem data "data" = Ok d -> getitem d "Players" = Ok p ->
        truthy p = false -> answer = Ok VNone)
  /\ (forall docs, players_docs data = Ok (VList docs) -> List.length docs <> 1%nat ->
        answer = Ok VNone)
  /\ (forall doc, players_docs data = Ok (VList [doc]) ->
        answer = instantiate Player doc)
  /\ (forall d, players_docs data = Ok (VList [VDict d]) ->
        mem "self" d = false ->
        mem "nickname" d = true -> mem "_id" d = true ->
        (forall m, get "metaData" d <> Some (VDict m)) ->
        exists attrs,
          answer = Ok (VInst Player attrs)
          /\ keys attrs = keys (cls_fields Player)
          /\ forall k v, In k (keys (cls_fields Player)) -> get k d = Some v ->
                         get k attrs = Some v)
  /\ (forall doc, players_docs data = Ok (VList [doc]) ->
        (isinstance_dict doc = false
         \/ exists d, doc = VDict d
                      /\ (mem "self" d = true \/ mem "nickname" d = false
                          \/ mem "_id" d = false)) ->
        exists e, answer = Raise e)
  /\ (forall v, answer = Ok v -> v <> VNone ->
        exists d attrs,
          players_docs data = Ok (VList [VDict d]) /\ v = VInst Player attrs).
Proof.
  intros Hser Hsrv answer. subst answer.
  rewrite (get_player_answer _ _ _ _ _ _ Hser Hsrv). simpl.
  repeat split.
  - intros Hc. unfold player_of_response. now rewrite Hc.
  - intros d p Hd Hp Ht. unfold player_of_response.
    rewrite (getitem_contains _ _ _ Hd), Hd. simpl. rewrite Hp. simpl.
    now rewrite Ht.
  - intros docs Hd Hlen. rewrite (player_of_response_docs _ _ Hd).
    destruct docs as [|doc [|doc' docs]]; try reflexivity.
    now destruct Hlen.
  - intros doc Hd. now rewrite (player_of_response_docs _ _ Hd).
  - intros d Hd Hself Hn Hi Hm. rewrite (player_of_response_docs _ _ Hd).
    cbn [instantiate]. now apply construct_Player_doc.
  - intros doc Hd Hbad. rewrite (player_of_response_docs _ _ Hd).
    destruct Hbad as [Hnd|(d & -> & Hbad)].
    + destruct doc as [ |b|z|s|l|dd|c0|c0 a0]; try discriminate Hnd;
        cbn [instantiate]; eauto.
    + cbn [instantiate]. destruct Hbad as [Hself|Hmiss].
      * rewrite (construct_self _ _ Hself). eauto.
      * now apply construct_Player_incomplete.
  - intros v Hv Hne. unfold player_of_response, players_docs in *.
    destruct (contains "data" data) as [ [|]|]; simpl in Hv;
      [|congruence|discriminate].
    destruct (getitem data "data") as [d|]; simpl in *; [|discriminate].
    destruct (getitem d "Players") as [p|]; simpl in *; [|discriminate].
    destruct (truthy p); simpl in Hv; [|congruence].
    destruct (getitem p "docs") as [docs|]; simpl in *; [|discriminate].
    destruct (len docs) as [n|] eqn:Hlen; simpl in Hv; [|discriminate].
    destruct (Nat.eqb n 1) eqn:Hn; simpl in Hv; [|congruence].
    apply Nat.eqb_eq in Hn. subst n.
    destruct docs as [ |b|z|s|l|dd|c0|c0 a0]; simpl in Hlen, Hv; try discriminate.
    + destruct s as [|a s]; simpl in Hv; discriminate.
    + destruct l as [|doc [|doc' l]]; try discriminate.
      destruct doc as [ |b|z|s|l|dd|c0|c0 a0];
        cbn [bind getitem0 instantiate] in Hv; try discriminate.
      apply construct_Ok_inv in Hv as (attrs & -> & _).
      now exists dd, attrs.
Qed.

Lemma C9_get_player_witness :
  fst (get_player (players_service []) (VStr "p1") VNone VNone []) = Ok VNone
  /\ fst (get_player (players_service [player_doc "p1" "ann"; player_doc "p2" "ann"])
            VNone VNone (VStr "ann") []) = Ok VNone
  /\ exists attrs,
       fst (get_player (players_service [player_doc "p1" "ann"]) (VStr "p1") VNone VNone [])
       = Ok (VInst Player attrs)
       /\ get "nickname" attrs = Some (VStr "ann").
Proof.
  split; [|split].
  - apply (proj1 (proj2 (proj2 (C9_get_player (players_service []) (VStr "p1")
                                  VNone VNone []
                                  (players_response []) eq_refl eq_refl))) [] eq_refl).
    discriminate.
  - apply (proj1 (proj2 (proj2 (C9_get_player
                                  (players_service
                                     [player_doc "p1" "ann"; player_doc "p2" "ann"])
                                  VNone VNone (VStr "ann") []
                                  (players_response
                                     [player_doc "p1" "ann"; player_doc "p2" "ann"])
                                  eq_refl eq_refl)))
             [player_doc "p1" "ann"; player_doc "p2" "ann"] eq_refl).
    discriminate.
  - destruct (proj1 (proj2 (proj2 (proj2 (proj2
               (C9_get_player (players_service [player_doc "p1" "ann"])
                  (VStr "p1") VNone VNone []
                  (players_response [player_doc "p1" "ann"]) eq_refl eq_refl)))))
               [ ("_id", VStr "p1"); ("nickname", VStr "ann");
                 ("shortNickname", VStr "ann"); ("avatarIconUrl", VNone);
                 ("playerLevel", VInt 3); ("metaData", VStr meta_text) ]
               eq_refl eq_refl eq_refl eq_refl)
      as (attrs & Ha & _ & Hget).
    + intros m. discriminate.
    + exists attrs. split; [exact Ha|].
      apply Hget; [|reflexivity]. simpl. now left.
Defined.

(** C9 as stated fails: a response in which exactly one document matched
    does not always yield a [Player].  The one document below carries no
    [_id], and [get_player] raises the error of the missing parameter. *)
Lemma C9_counterexample :
  players_docs (players_response [anonymous_doc]) = Ok (VList [anonymous_doc])
  /\ players_service [anonymous_doc] [] (QPlayers (player_filter VNone VNone (VStr "ann")))
     = Ok (players_response [anonymous_doc])
  /\ fst (get_player (players_service [anonymous_doc]) VNone VNone (VStr "ann") [])
     = Raise (TournamentApiError (VStr "Required parameter '_id' missing")).
Proof. repeat split. Qed.

(** ** TournamentApi.get_score_history: the paging loop *)

Lemma score_page_docs (scoreResult : value) (docs : list value)
    (offset : Z) (scores : list value) :
  page scoreResult docs ->
  score_page scoreResult offset scores =
    match docs with
    | [] => Ok (O, offset, scores)
    | _ :: _ => Ok (List.length docs, (offset + 10)%Z, scores ++ docs)
    end.
Proof.
  intros (sc & total & Hsc & Hdocs & Htotal).
  unfold scores_of in Hsc. unfold score_page.
  destruct (getitem scoreResult "data") as [d|] eqn:Hd; simpl in Hsc; [|discriminate].
  assert (Hc : contains "data" scoreResult = Ok true).
  { destruct scoreResult as [ |b|z|s|l|dd|c0|c0 a0]; try discriminate.
    simpl in *. unfold mem.
    destruct (get "data" dd); [reflexivity|discriminate]. }
  rewrite Hc. simpl. rewrite Hsc. simpl. rewrite Hdocs. simpl.
  destruct docs as [|doc docs]; simpl; [reflexivity|].
  now rewrite Htotal.
Qed.

(** What a turn can do to [left] and [offset]. *)
Lemma score_page_offset (scoreResult : value) (offset offset' : Z)
    (scores scores' : list value) (left_ : nat) :
  score_page scoreResult offset scores = Ok (left_, offset', scores') ->
  (left_ = O /\ offset' = offset) \/ offset' = (offset + 10)%Z.
Proof.
  unfold score_page.
  destruct (contains "data" scoreResult) as [has|]; simpl; [|discriminate].
  match goal with
  | |- context [bind ?m _] => destruct m as [ [ | ] | ]; simpl; try discriminate
  end.
  - intros [= <- <- <-]. now left.
  - repeat match goal with
           | |- context [bind ?m _] => destruct m; simpl; try discriminate
           end.
    intros [= <- <- <-]. now right.
Qed.

(** A turn of the loop when the filter can be encoded: the query is sent
    and the answer decides. *)
Lemma score_pages_turn (srv : service) (fuel : nat) (playerId : value)
    (offset : Z) (scores : list value) (h : list request) :
  serialisable playerId = true ->
  score_pages srv (S fuel) playerId offset scores h =
    match srv h (QScores 10 offset [("player", playerId)]) with
    | Raise e => Some (Raise e, h ++ [QScores 10 offset [("player", playerId)]])
    | Ok scoreResult =>
        match score_page scoreResult offset scores with
        | Raise e => Some (Raise e, h ++ [QScores 10 offset [("player", playerId)]])
        | Ok (left_, offset', scores') =>
            if Nat.eqb left_ 0 || (100 <? offset')%Z
            then Some (Ok scores', h ++ [QScores 10 offset [("player", playerId)]])
            else score_pages srv fuel playerId offset' scores'
                   (h ++ [QScores 10 offset [("player", playerId)]])
        end
    end.
Proof.
  intros Hs. cbn [score_pages]. unfold io_bind, lift, send.
  rewrite json_dumps_Ok by now rewrite serialisable_filter.
  reflexivity.
Qed.

(** A turn when it cannot: the loop raises before it sends anything. *)
Lemma score_pages_unserialisable (srv : service) (fuel : nat) (playerId : value)
    (offset : Z) (scores : list value) (h : list request) :
  serialisable playerId = false ->
  score_pages srv (S fuel) playerId offset scores h = Some (Raise TypeError, h).
Proof.
  intros Hs. cbn [score_pages]. unfold io_bind, lift.
  rewrite json_dumps_Raise by now rewrite serialisable_filter.
  reflexivity.
Qed.

(** The loop ends within eleven turns, whatever the service answers. *)
Lemma score_pages_terminates (srv : service) (playerId : value) (fuel : nat) :
  forall (offset : Z) (scores : list value) (h : list request),
    (1 <= fuel)%nat -> (100 - 10 * Z.of_nat fuel < offset)%Z ->
    score_pages srv fuel playerId offset scores h <> None.
Proof.
  induction fuel as [|fuel IH]; intros offset scores h Hf Ho; [lia|].
  destruct (serialisable playerId) eqn:Hs;
    [|now rewrite score_pages_unserialisable].
  rewrite score_pages_turn by exact Hs.
  destruct (srv h (QScores 10 offset [("player", playerId)])) as [r|e];
    [|discriminate].
  destruct (score_page r offset scores) as [[[left_ offset'] scores']|e] eqn:Hp;
    [|discriminate].
  destruct (Nat.eqb left_ 0 || (100 <? offset')%Z) eqn:Ht; [discriminate|].
  apply orb_false_iff in Ht as [Hl Hlt].
  apply Nat.eqb_neq in Hl. apply Z.ltb_ge in Hlt.
  apply score_page_offset in Hp as [[H0 _] | ->]; [contradiction|].
  apply IH; lia.
Qed.

Lemma score_pages_never_empty (srv : service) (playerId : value) :
  serialisable playerId = true ->
  never_empty srv playerId ->
  forall (n fuel : nat) (offset : Z) (scores : list value) (h : list request),
    (1 <= n)%nat -> (n <= fuel)%nat ->
    (100 - 10 * Z.of_nat n < offset <= 110 - 10 * Z.of_nat n)%Z ->
    exists more,
      score_pages srv fuel playerId offset scores h
      = Some (Ok (scores ++ more), h ++ map (scores_request playerId) (offsets n offset))
      /\ (pages_of_ten srv playerId -> (List.length more <= 10 * n)%nat).
Proof.
  intros Hs Hne n. induction n as [|n IH]; intros fuel offset scores h Hn Hf Ho; [lia|].
  destruct fuel as [|fuel]; [lia|].
  rewrite score_pages_turn by exact Hs.
  destruct (Hne h offset) as (r & docs & Hr & Hpage & Hdocs).
  unfold scores_request in Hr. rewrite Hr.
  rewrite (score_page_docs _ _ _ _ Hpage).
  destruct docs as [|doc docs]; [contradiction|]. simpl Nat.eqb. simpl orb.
  destruct (100 <? offset + 10)%Z eqn:Hlt.
  - apply Z.ltb_lt in Hlt.
    assert (n = O) as -> by lia. simpl.
    exists (doc :: docs). split; [reflexivity|].
    intros Hten. specialize (Hten h offset r (doc :: docs)).
    unfold scores_request in Hten. specialize (Hten Hr Hpage). simpl in *. lia.
  - apply Z.ltb_ge in Hlt.
    destruct (IH fuel (offset + 10)%Z (scores ++ doc :: docs)
                (h ++ [QScores 10 offset [("player", playerId)]]))
      as (more & Hrun & Hlen); try lia.
    exists ((doc :: docs) ++ more). split.
    + rewrite Hrun. simpl. now rewrite <- !app_assoc.
    + intros Hten. specialize (Hlen Hten).
      specialize (Hten h offset r (doc :: docs)).
      unfold scores_request in Hten. specialize (Hten Hr Hpage).
      rewrite length_app. lia.
Qed.

(** C5.  Against a service whose score query never returns an empty page
    the loop sends exactly the queries at offsets 0, 10, ..., 100 and
    stops, the offset having passed 100; with pages of at most ten
    documents it has then accumulated at most 110 of them.  (A [playerId]
    that [json.dumps] refuses makes the first turn raise before anything
    is sent.) *)
Theorem C5_history_cap (srv : service) (playerId : value)
    (h : list request) (fuel : nat) :
  (11 <= fuel)%nat ->
  never_empty srv playerId ->
  (serialisable playerId = true ->
   exists scores,
     get_score_history_scores srv fuel playerId h
     = Some (Ok scores,
             h ++ map (scores_request playerId)
                    [0; 10; 20; 30; 40; 50; 60; 70; 80; 90; 100]%Z)
     /\ (pages_of_ten srv playerId -> (List.length scores <= 110)%nat))
  /\ (serialisable playerId = false ->
      get_score_history_scores srv fuel playerId h = Some (Raise TypeError, h)).
Proof.
  intros Hf Hne. split; intros Hs.
  - destruct (score_pages_never_empty srv playerId Hs Hne 11 fuel 0%Z [] h)
      as (more & Hrun & Hlen); try lia.
    exists more. split; [exact Hrun|].
    intros Hten. specialize (Hlen Hten). lia.
  - destruct fuel as [|fuel]; [lia|].
    now apply score_pages_unserialisable.
Qed.

Lemma endless_never_empty (playerId : value) : never_empty endless_service playerId.
Proof.
  intros h offset.
  exists (scores_response 1000
            (map (fun i => VDict [("_id", VInt (offset + Z.of_nat i))]) (seq 0 10))).
  eexists. split; [reflexivity|]. split.
  - eexists. eexists. repeat split; reflexivity.
  - discriminate.
Qed.

Lemma endless_pages_of_ten (playerId : value) : pages_of_ten endless_service playerId.
Proof.
  intros h offset r docs Hr (sc & total & Hsc & Hdocs & _).
  injection Hr as <-. injection Hsc as <-. injection Hdocs as <-.
  apply le_n.
Qed.

Lemma C5_history_cap_witness :
  exists scores,
    get_score_history_scores endless_service 11 (VStr "p1") []
    = Some (Ok scores,
            map (scores_request (VStr "p1"))
              [0; 10; 20; 30; 40; 50; 60; 70; 80; 90; 100]%Z)
    /\ (List.length scores <= 110)%nat.
Proof.
  destruct (proj1 (C5_history_cap endless_service (VStr "p1") [] 11 (le_n 11)
                     (endless_never_empty (VStr "p1"))) eq_refl)
    as (scores & Hrun & Hlen).
  exists scores. split; [exact Hrun|].
  exact (Hlen (endless_pages_of_ten (VStr "p1"))).
Defined.

(** C6, as amended.  Against a service that holds exactly 35 score
    documents and serves them in pages of ten, the loop accumulates
    exactly these 35 documents and sends exactly five queries, at offsets
    0, 10, 20, 30 and 40: the page at offset 30 holds five documents, so
    the loop goes on, and it stops on the empty page at offset 40.  (A
    [playerId] that [json.dumps] refuses makes the first turn raise
    before anything is sent.) *)
Theorem C6_thirty_five (docs : list value) (playerId : value)
    (h : list request) (fuel : nat) :
  List.length docs = 35%nat ->
  (5 <= fuel)%nat ->
  get_score_history_scores (paged_service docs) fuel playerId h
  = if serialisable playerId
    then Some (Ok docs, h ++ map (scores_request playerId) [0; 10; 20; 30; 40]%Z)
    else Some (Raise TypeError, h).
Proof.
  intros Hlen Hf. unfold get_score_history_scores.
  destruct (serialisable playerId) eqn:Hs.
  - do 35 (destruct docs as [|? docs]; [discriminate|]).
    destruct docs; [|discriminate]. clear Hlen.
    do 5 (destruct fuel as [|fuel]; [lia|]). clear Hf.
    do 5 (rewrite score_pages_turn by exact Hs; cbv -[app score_pages]).
    rewrite <- !app_assoc. reflexivity.
  - destruct fuel as [|fuel]; [lia|].
    now apply score_pages_unserialisable.
Qed.

Lemma C6_thirty_five_witness :
  get_score_history_scores (paged_service (sample_scores 35)) 11 (VStr "p1") []
  = Some (Ok (sample_scores 35),
          map (scores_request (VStr "p1")) [0; 10; 20; 30; 40]%Z).
Proof.
  apply (C6_thirty_five (sample_scores 35) (VStr "p1") [] 11).
  - reflexivity.
  - repeat constructor.
Defined.

(** C6 as stated fails: with 35 documents served in pages of ten the loop
    accumulates the 35 documents but sends five queries, not four; the
    fifth, at offset 40, is the one answered by an empty page.  And with a
    [playerId] that cannot be encoded, here a class object, nothing is
    fetched at all. *)
Lemma C6_counterexample :
  (exists scores sent,
     get_score_history_scores (paged_service (sample_scores 35)) 11 (VStr "p1") []
     = Some (Ok scores, sent)
     /\ List.length scores = 35%nat
     /\ sent = map (scores_request (VStr "p1")) [0; 10; 20; 30; 40]%Z
     /\ List.length sent <> 4%nat
     /\ paged_service (sample_scores 35) (removelast sent) (scores_request (VStr "p1") 40)
        = Ok (scores_response 35 []))
  /\ get_score_history_scores (paged_service (sample_scores 35)) 11 (VClass Player) []
     = Some (Raise TypeError, []).
Proof.
  split; [|reflexivity].
  eexists. eexists. split; [vm_compute; reflexivity|].
  repeat split; try reflexivity. discriminate.
Qed.

(** ** TournamentApi.post_score *)

Lemma keys_dict_of_items (k : string) (items : dict) :
  In k (keys (dict_of_items items)) <-> In k (keys items).
Proof. unfold dict_of_items. rewrite keys_update. simpl. tauto. Qed.

Lemma keys_filter (f : string * value -> bool) (k : string) (d : dict) :
  In k (keys (filter f d)) <-> exists v, In (k, v) d /\ f (k, v) = true.
Proof.
  unfold keys. rewrite in_map_iff. split.
  - intros ([k' v] & Hk & Hin). simpl in Hk. subst k'.
    apply filter_In in Hin. now exists v.
  - intros (v & Hin & Hf). exists (k, v). split; [reflexivity|].
    now apply filter_In.
Qed.

Lemma NoDup_keys_filter (f : string * value -> bool) (d : dict) :
  NoDup (keys d) -> NoDup (keys (filter f d)).
Proof.
  induction d as [|[k v] d IH]; simpl; intros ND; [constructor|].
  inversion ND as [|? ? Hnot ND']; subst.
  destruct (f (k, v)); simpl; [|now apply IH].
  constructor; [|now apply IH].
  intros Hin. apply Hnot. apply keys_filter in Hin as (v' & Hin & _).
  unfold keys. now apply (in_map fst) in Hin.
Qed.

Lemma mapM_dunder_dict (class_dict : class -> dict) (l : list value) :
  forallb isinstance_Base l = true ->
  exists ds, mapM (dunder_dict class_dict) l = Ok ds.
Proof.
  induction l as [|x l IH]; simpl; intros H; [eauto|].
  apply andb_prop in H as [Hx Hl].
  destruct x as [ |b|z|s|l0|dd|c0|c0 a0]; try discriminate. simpl.
  destruct (IH Hl) as [ds ->]. simpl. eauto.
Qed.

Section PostScoreFacts.
Variable class_dict : class -> dict.
Variable self : TournamentApi.

(** On a dictionary without repeated keys the comprehension that builds
    the request body is a filter followed by a map. *)
Lemma wire_payload_NoDup (data : dict) :
  NoDup (keys data) ->
  wire_payload data
  = map (fun kv => (fst kv, dumpable (snd kv)))
        (filter (fun kv => negb (eq_None (snd kv))) data).
Proof.
  intros ND. unfold wire_payload. apply dict_of_items_NoDup.
  unfold keys. rewrite map_map. simpl.
  now apply NoDup_keys_filter.
Qed.

(** What [post_score_data] returns, when it returns. *)
Lemma post_score_data_inv (player upload : value) (data : dict) :
  post_score_data class_dict self player upload = Ok data ->
  exists apiKey playerId score scoreValue passed secondsSurvived group
         sb breakdown sg song own inputEvents noteScores,
    getattr upload "score" = Ok score
    /\ getattr score "scoreBreakdown" = Ok sb
    /\ dunder_dict class_dict sb = Ok breakdown
    /\ getattr upload "song" = Ok sg
    /\ dunder_dict class_dict sg = Ok song
    /\ dunder_dict class_dict upload = Ok own
    /\ data =
       setitem "noteScoresWithBeats" noteScores
         (setitem "inputEvents" inputEvents
            (update
               (update
                  (update
                     (dict_of_items
                        [ ("apiKey", apiKey); ("playerId", playerId);
                          ("scoreValue", scoreValue); ("passed", passed);
                          ("secondsSurvived", secondsSurvived); ("group", group) ])
                     breakdown)
                  song)
               (dict_of_items
                  (filter (fun kv => negb (isinstance_FlattenedBase (snd kv))) own)))).
Proof.
  unfold post_score_data. intros H.
  destruct (key self) as [apiKey|] eqn:E1; simpl in H; [|discriminate].
  destruct (getattr player "_id") as [playerId|] eqn:E2; simpl in H; [|discriminate].
  destruct (getattr upload "score") as [score|] eqn:E3; simpl in H; [|discriminate].
  destruct (getattr score "scoreValue") as [scoreValue|] eqn:E4;
    simpl in H; [|discriminate].
  destruct (getattr score "passed") as [passed|] eqn:E5; simpl in H; [|discriminate].
  destruct (getattr score "secondsSurvived") as [secondsSurvived|] eqn:E6;
    simpl in H; [|discriminate].
  destruct (getattr upload "group") as [group|] eqn:E7; simpl in H; [|discriminate].
  destruct (getattr score "scoreBreakdown") as [sb|] eqn:E8;
    simpl in H; [|discriminate].
  destruct (dunder_dict class_dict sb) as [breakdown|] eqn:E9;
    simpl in H; [|discriminate].
  destruct (getattr upload "song") as [sg|] eqn:E10; simpl in H; [|discriminate].
  destruct (dunder_dict class_dict sg) as [song|] eqn:E11;
    simpl in H; [|discriminate].
  destruct (dunder_dict class_dict upload) as [own|] eqn:E12;
    simpl in H; [|discriminate].
  destruct (getattr upload "inputEvents") as [ie|] eqn:E13;
    simpl in H; [|discriminate].
  destruct (dicts_of class_dict ie) as [inputEvents|] eqn:E14;
    simpl in H; [|discriminate].
  destruct (getattr upload "noteScoresWithBeats") as [ns|] eqn:E15;
    simpl in H; [|discriminate].
  destruct (dicts_of class_dict ns) as [noteScores|] eqn:E16;
    simpl in H; [|discriminate].
  injection H as <-.
  exists apiKey, playerId, score, scoreValue, passed, secondsSurvived, group,
         sb, breakdown, sg, song, own, inputEvents, noteScores.
  repeat split; first [assumption|reflexivity].
Qed.

Lemma post_score_data_NoDup (player upload : value) (data : dict) :
  post_score_data class_dict self player upload = Ok data -> NoDup (keys data).
Proof.
  intros H. apply post_score_data_inv in H
    as (apiKey & playerId & score & scoreValue & passed & secondsSurvived & group
        & sb & breakdown & sg & song & own & inputEvents & noteScores
        & _ & _ & _ & _ & _ & _ & ->).
  do 2 apply NoDup_setitem. do 3 apply NoDup_update.
  apply NoDup_dict_of_items.
Qed.

(** The request [post_score] sends carries the filtered data as its body. *)
Lemma post_score_sends (srv : service) (player upload : value) (data : dict)
    (h : list request) :
  post_score_data class_dict self player upload = Ok data ->
  snd (post_score class_dict self srv player upload h)
  = h ++ [Post (url self ++ "/post-score") (wire_payload data)].
Proof.
  intros H. unfold post_score, io_bind, lift, send. rewrite H.
  destruct (srv h (Post (url self ++ "/post-score") (wire_payload data))) as [j|e];
    [|reflexivity].
  destruct (getitem j "success") as [success|e]; [|reflexivity].
  destruct (ne_True success); [|reflexivity].
  destruct (getitem j "message"); reflexivity.
Qed.
End PostScoreFacts.

Lemma dumpable_not_None (v : value) : v <> VNone -> dumpable v <> VNone.
Proof. destruct v; simpl; intros H; try discriminate; exact H. Qed.

(** C3.  Whatever the player and the upload, the body [post_score] sends
    holds no entry whose value is [None]: an entry of the flattened data
    whose value is [None] has no key in the body, and every other entry is
    there, a record instance being replaced by its attributes. *)
Theorem C3_no_null_in_payload (class_dict : class -> dict) (self : TournamentApi)
    (player upload : value) (data : dict) :
  post_score_data class_dict self player upload = Ok data ->
  (forall k v, In (k, v) (wire_payload data) -> v <> VNone)
  /\ (forall k, get k data = Some VNone -> ~ In k (keys (wire_payload data)))
  /\ (forall k v, get k data = Some v -> v <> VNone ->
        get k (wire_payload data) = Some (dumpable v))
  /\ (forall srv h,
        snd (post_score class_dict self srv player upload h)
        = h ++ [Post (url self ++ "/post-score") (wire_payload data)]).
Proof.
  intros H. pose proof (post_score_data_NoDup _ _ _ _ _ H) as ND.
  pose proof (wire_payload_NoDup data ND) as Hw.
  assert (NDw : NoDup (keys (wire_payload data))).
  { unfold wire_payload. apply NoDup_dict_of_items. }
  assert (Hin : forall k w, In (k, w) (wire_payload data) ->
            exists v, In (k, v) data /\ v <> VNone /\ w = dumpable v).
  { intros k w Hkw. rewrite Hw in Hkw.
    apply in_map_iff in Hkw as ([k' v] & [= -> <-] & Hf).
    apply filter_In in Hf as [Hd Hn]. simpl in Hn.
    exists v. repeat split; [exact Hd|].
    intros ->. discriminate. }
  repeat split.
  - intros k w Hkw. destruct (Hin k w Hkw) as (v & _ & Hv & ->).
    now apply dumpable_not_None.
  - intros k Hget Hk.
    apply keys_In_get in Hk as [w Hw'].
    apply get_Some_In in Hw'.
    destruct (Hin k w Hw') as (v & Hd & Hv & _).
    rewrite (NoDup_In_get _ _ _ ND Hd) in Hget. congruence.
  - intros k v Hget Hv. apply NoDup_In_get; [exact NDw|].
    rewrite Hw. apply in_map_iff. exists (k, v). split; [reflexivity|].
    apply filter_In. split; [now apply get_Some_In|].
    simpl. destruct v; try reflexivity. now destruct Hv.
  - intros srv h. now apply post_score_sends.
Qed.

Lemma C3_no_null_in_payload_witness :
  let data := dict_of (post_score_data fields_namespace sample_api
                         sample_player upload_without_misses) in
  get "misses" data = Some VNone
  /\ ~ In "misses" (keys (wire_payload data))
  /\ get "holds" (wire_payload data) = Some (VInt 7).
Proof.
  intros data.
  pose proof (C3_no_null_in_payload fields_namespace sample_api
                sample_player upload_without_misses data eq_refl)
    as (_ & Hnull & Hkept & _).
  split; [reflexivity|]. split.
  - apply Hnull. reflexivity.
  - apply (Hkept "holds" (VInt 7)); [reflexivity|discriminate].
Defined.

Lemma getattr_inst (c : class) (attrs : dict) (name : string) (x : value) :
  get name attrs = Some x -> getattr (VInst c attrs) name = Ok x.
Proof. simpl. now intros ->. Qed.

Lemma mem_get (k : string) (d : dict) :
  mem k d = true -> exists v, get k d = Some v.
Proof. unfold mem. destruct (get k d) as [v|]; [eauto|discriminate]. Qed.

Lemma dicts_of_instances (class_dict : class -> dict) (l : list value) :
  forallb isinstance_Base l = true ->
  exists v, dicts_of class_dict (VList l) = Ok v.
Proof.
  intros H. unfold dicts_of. simpl.
  destruct (mapM_dunder_dict class_dict l H) as [ds ->]. simpl. eauto.
Qed.

















(** * Further properties *)

(** ** Base.__init__: what the input may vary in, and what comes out *)

Lemma init_fields_ext (call : value -> value -> result value)
    (fields kwargs kwargs' : dict) :
  (forall k, In k (keys fields) -> get k kwargs = get k kwargs') ->
  forall self, init_fields call fields kwargs self = init_fields call fields kwargs' self.
Proof.
  induction fields as [|[k c] fields IH]; intros Hsame self; [reflexivity|].
  simpl.
  assert (E : init_field call k c kwargs = init_field call k c kwargs').
  { unfold init_field. now rewrite (Hsame k (or_introl eq_refl)). }
  rewrite E.
  destruct (init_field call k c kwargs') as [val|e]; simpl; [|reflexivity].
  apply IH. intros k' Hin. apply Hsame. now right.
Qed.

(** X1.  Construction reads the input only at the names of the schema and
    at the name [self]: two inputs that agree on every schema field, and
    on whether they have a key named [self], give the same result, so any
    other key is ignored, whatever it holds. *)
Theorem construct_ignores_extra_keys (c : class) (kwargs kwargs' : dict) :
  mem "self" kwargs = mem "self" kwargs' ->
  (forall k, In k (keys (cls_fields c)) -> get k kwargs = get k kwargs') ->
  construct c kwargs = construct c kwargs'.
Proof.
  intros Hself Hsame. rewrite !construct_unfold, Hself.
  now rewrite (init_fields_ext call_spec _ _ _ Hsame).
Qed.

Lemma construct_ignores_extra_keys_witness :
  construct Player
    [ ("_id", VStr "p1"); ("nickname", VStr "ann"); ("playerLevel", VInt 3);
      ("globalLadderRank", VDict [("season", VInt 2)]) ]
  = construct Player [ ("nickname", VStr "ann"); ("_id", VStr "p1") ].
Proof.
  apply construct_ignores_extra_keys; [reflexivity|].
  intros k Hin.
  in_cases Hin ltac:(fun E => rewrite <- E; reflexivity).
Defined.




(** The attribute of a field the input leaves out. *)
Lemma construct_omitted_field (c : class) (kwargs attrs : dict) (k : string) (spec : value) :
  NoDup (keys (cls_fields c)) ->
  In (k, spec) (cls_fields c) ->
  get k kwargs = None ->
  construct c kwargs = Ok (VInst c attrs) ->
  get k attrs = Some spec.
Proof.
  intros ND Hin Hget H.
  apply construct_Ok_inv in H as (attrs0 & [= <-] & Hinit).
  destruct (init_fields_get _ _ _ ND _ _ Hinit _ _ Hin) as (val & Hval & Hattr).
  rewrite Hattr. f_equal.
  unfold init_field in Hval. rewrite Hget in Hval.
  destruct spec as [ |b|z|s|l|dd|c'|c0 a0]; simpl in Hval; try discriminate;
    try (injection Hval as <-; reflexivity).
  - destruct b; simpl in Hval; now injection Hval as <-.
  - destruct (negb (z =? 0)%Z); simpl in Hval; now injection Hval as <-.
  - destruct (negb (s =? EmptyString)%string); simpl in Hval; now injection Hval as <-.
  - destruct l; simpl in Hval; now injection Hval as <-.
  - destruct dd; simpl in Hval; [now injection Hval as <-|discriminate].
Qed.







(** X5.  A player built from an input without [metaData] has no meta
    value at all: [getMeta] answers [None] for every field name, the
    default text being the empty JSON object. *)
Theorem getMeta_of_default (decode : string -> option value)
    (kwargs : dict) (self : value) (field : string) :
  decode "{}" = Some (VDict []) ->
  get "metaData" kwargs = None ->
  construct Player kwargs = Ok self ->
  getMeta decode self field = Ok VNone.
Proof.
  intros Hdec Hget H.
  destruct (construct_Ok_inv _ _ _ H) as (attrs & -> & _).
  assert (Hm : get "metaData" attrs = Some (VStr "{}")).
  { apply (construct_omitted_field Player kwargs attrs "metaData" (VStr "{}"));
      [exact (nodupb_NoDup (keys (cls_fields Player)) eq_refl)| |exact Hget|exact H].
    simpl. do 5 right. now left. }
  unfold getMeta. simpl. rewrite Hm. simpl. now rewrite Hdec.
Qed.

Lemma getMeta_of_default_witness :
  getMeta sample_decode sample_player "theme" = Ok VNone.
Proof.
  exact (getMeta_of_default sample_decode player_kwargs sample_player "theme"
           eq_refl eq_refl eq_refl).
Defined.

(** ** TournamentApi.get_score_history: the paging loop, for every service *)

Lemma offsets_cons (n : nat) (offset : Z) (playerId : value) (h : list request) :
  (h ++ [scores_request playerId offset])
    ++ map (scores_request playerId) (offsets n (offset + 10))
  = h ++ map (scores_request playerId) (offsets (S n) offset).
Proof. now rewrite <- app_assoc. Qed.

Lemma score_pages_step (srv : service) (fuel : nat) (playerId : value)
    (offset : Z) (scores : list value) (h : list request) :
  serialisable playerId = true ->
  score_pages srv (S fuel) playerId offset scores h =
    match srv h (scores_request playerId offset) with
    | Raise e => Some (Raise e, h ++ [scores_request playerId offset])
    | Ok scoreResult =>
        match score_page scoreResult offset scores with
        | Raise e => Some (Raise e, h ++ [scores_request playerId offset])
        | Ok (left_, offset', scores') =>
            if Nat.eqb left_ 0 || (100 <? offset')%Z
            then Some (Ok scores', h ++ [scores_request playerId offset])
            else score_pages srv fuel playerId offset' scores'
                   (h ++ [scores_request playerId offset])
        end
    end.
Proof. exact (score_pages_turn srv fuel playerId offset scores h). Qed.

Lemma score_pages_bounded (srv : service) (playerId : value) (k : nat) :
  serialisable playerId = true ->
  forall (offset : Z) (scores : list value) (h : list request),
    (1 <= k)%nat -> (100 - 10 * Z.of_nat k < offset)%Z ->
    exists r n,
      (1 <= n <= k)%nat
      /\ forall fuel, (k <= fuel)%nat ->
           score_pages srv fuel playerId offset scores h
           = Some (r, h ++ map (scores_request playerId) (offsets n offset)).
Proof.
  intros Hs.
  induction k as [|k IH]; intros offset scores h Hk Ho; [lia|].
  destruct (srv h (scores_request playerId offset)) as [sr|e] eqn:Hsrv.
  - destruct (score_page sr offset scores) as [[[left_ offset'] scores']|e] eqn:Hp.
    + destruct (Nat.eqb left_ 0 || (100 <? offset')%Z) eqn:Ht.
      * exists (Ok scores'), 1%nat. split; [lia|].
        intros [|fuel] Hf; [lia|]. rewrite score_pages_step by exact Hs.
        now rewrite Hsrv, Hp, Ht.
      * pose proof Ht as Ht'.
        apply orb_false_iff in Ht' as [Hl Hlt].
        apply Nat.eqb_neq in Hl. apply Z.ltb_ge in Hlt.
        destruct (score_page_offset _ _ _ _ _ _ Hp) as [[H0 _]|Ho'];
          [contradiction|].
        subst offset'.
        destruct (IH (offset + 10)%Z scores' (h ++ [scores_request playerId offset]))
          as (r & n & Hn & Hrun); try lia.
        exists r, (S n). split; [lia|].
        intros [|fuel] Hf; [lia|]. rewrite score_pages_step by exact Hs.
        rewrite Hsrv, Hp, Ht.
        rewrite (Hrun fuel) by lia. now rewrite offsets_cons.
    + exists (Raise e), 1%nat. split; [lia|].
      intros [|fuel] Hf; [lia|]. rewrite score_pages_step by exact Hs.
      now rewrite Hsrv, Hp.
  - exists (Raise e), 1%nat. split; [lia|].
    intros [|fuel] Hf; [lia|]. rewrite score_pages_step by exact Hs.
    now rewrite Hsrv.
Qed.

(** X6.  Whatever the service answers, the paging loop of
    [get_score_history] ends: it sends at most eleven score queries, at
    the offsets 0, 10, 20, ... in this order, and its outcome does not
    depend on the fuel once there are eleven units of it.  It sends at
    least one query when [json.dumps] accepts the [playerId]; when it
    does not, the first turn raises [TypeError] and nothing is sent. *)
Theorem score_history_at_most_eleven_queries (srv : service) (playerId : value)
    (h : list request) :
  exists r n,
    (n <= 11)%nat
    /\ (serialisable playerId = true -> (1 <= n)%nat)
    /\ (serialisable playerId = false -> n = 0%nat /\ r = Raise TypeError)
    /\ forall fuel, (11 <= fuel)%nat ->
         get_score_history_scores srv fuel playerId h
         = Some (r, h ++ map (scores_request playerId) (offsets n 0)).
Proof.
  unfold get_score_history_scores.
  destruct (serialisable playerId) eqn:Hs.
  - destruct (score_pages_bounded srv playerId 11 Hs 0%Z [] h)
      as (r & n & Hn & Hrun); try lia.
    exists r, n. split; [lia|]. split; [intros _; lia|].
    split; [discriminate|exact Hrun].
  - exists (Raise TypeError), 0%nat. split; [lia|]. split; [discriminate|].
    split; [now split|].
    intros [|fuel] Hf; [lia|].
    rewrite score_pages_unserialisable by exact Hs.
    cbn [offsets map]. now rewrite app_nil_r.
Qed.

Lemma firstn_plus (a b : nat) (l : list value) :
  firstn (a + b) l = firstn a l ++ firstn b (skipn a l).
Proof.
  revert l. induction a as [|a IH]; intros l; [reflexivity|].
  destruct l as [|x l]; simpl.
  - now destruct b.
  - now rewrite IH.
Qed.

Lemma paged_page (docs : list value) (h : list request) (playerId : value) (m : nat) :
  exists sr,
    paged_service docs h (scores_request playerId (Z.of_nat m)) = Ok sr
    /\ page sr (firstn 10 (skipn m docs)).
Proof.
  eexists. split.
  - simpl. rewrite Nat2Z.id. reflexivity.
  - eexists. eexists. repeat split; reflexivity.
Qed.

Lemma page_empty_iff (docs : list value) (m : nat) :
  firstn 10 (skipn m docs) = [] <-> (List.length docs <= m)%nat.
Proof.
  split.
  - intros H. apply (f_equal (@List.length value)) in H.
    rewrite length_firstn, length_skipn in H. cbn [List.length] in H. lia.
  - intros H. now rewrite skipn_all2.
Qed.

Lemma paged_pages (docs : list value) (playerId : value) (k : nat) :
  serialisable playerId = true ->
  forall (i : nat) (h : list request),
    (i + k = 11)%nat -> (1 <= k)%nat ->
    exists n,
      (1 <= n <= k)%nat
      /\ (forall fuel, (k <= fuel)%nat ->
            score_pages (paged_service docs) fuel playerId (Z.of_nat (10 * i))
              (firstn (10 * i) docs) h
            = Some (Ok (firstn 110 docs),
                    h ++ map (scores_request playerId) (offsets n (Z.of_nat (10 * i)))))
      /\ (List.length docs <= 10 * (i + n - 1) \/ i + n = 11)%nat
      /\ (1 < n -> 10 * (i + n - 2) < List.length docs)%nat.
Proof.
  intros Hs.
  induction k as [|k IH]; intros i h Hik Hk; [lia|].
  destruct (paged_page docs h playerId (10 * i)) as (sr & Hsr & Hpage).
  pose proof (score_page_docs sr _ (Z.of_nat (10 * i)) (firstn (10 * i) docs) Hpage)
    as Hstep.
  destruct (firstn 10 (skipn (10 * i) docs)) as [|d pg] eqn:Hpg.
  - (* the page is empty *)
    apply page_empty_iff in Hpg.
    exists 1%nat. split; [lia|]. split; [|split; [left; lia|lia]].
    intros [|fuel] Hf; [lia|]. rewrite score_pages_step by exact Hs.
      rewrite Hsr, Hstep.
    cbn [Nat.eqb orb]. rewrite !firstn_all2 by lia. reflexivity.
  - assert (Hlt : (10 * i < List.length docs)%nat).
    { destruct (Nat.le_gt_cases (List.length docs) (10 * i)) as [Hle|Hgt];
        [|exact Hgt].
      apply page_empty_iff in Hle. congruence. }
    assert (Hsc : firstn (10 * i) docs ++ d :: pg = firstn (10 * S i) docs).
    { rewrite <- Hpg. replace (10 * S i)%nat with (10 * i + 10)%nat by lia.
      now rewrite firstn_plus. }
    destruct (Nat.eq_dec i 10) as [->|Hi].
    + (* the eleventh query *)
      exists 1%nat. split; [lia|]. split; [|split; [right; lia|lia]].
      intros [|fuel] Hf; [lia|]. rewrite score_pages_step by exact Hs.
      rewrite Hsr, Hstep.
      cbn [Nat.eqb orb List.length]. now rewrite Hsc.
    + destruct (IH (S i) (h ++ [scores_request playerId (Z.of_nat (10 * i))]))
        as (n & Hn & Hrun & Hstop & Hfull); try lia.
      exists (S n). split; [lia|]. split; [|split].
      * intros [|fuel] Hf; [lia|]. rewrite score_pages_step by exact Hs.
      rewrite Hsr, Hstep.
        cbn [Nat.eqb orb List.length].
        replace (100 <? Z.of_nat (10 * i) + 10)%Z with false
          by (symmetry; apply Z.ltb_ge; lia).
        rewrite Hsc.
        replace (Z.of_nat (10 * i) + 10)%Z with (Z.of_nat (10 * S i)) by lia.
        rewrite (Hrun fuel) by lia.
        rewrite <- offsets_cons.
        replace (Z.of_nat (10 * i) + 10)%Z with (Z.of_nat (10 * S i)) by lia.
        reflexivity.
      * destruct Hstop as [Hstop|Hstop]; [left|right]; lia.
      * intros _. destruct (Nat.eq_dec n 1) as [->|Hn1]; [|specialize (Hfull ltac:(lia))];
          lia.
Qed.

(** X7.  Against a service that holds [docs] and serves the slice each
    query asks for, the loop accumulates the first 110 documents of
    [docs] (all of them when there are at most 110), and it stops at the
    first empty page or after the eleventh query, whichever comes first:
    every page but the last one was not empty.  (A [playerId] that
    [json.dumps] refuses makes the first turn raise before anything is
    sent.) *)
Theorem score_history_of_paged_service (docs : list value) (playerId : value)
    (h : list request) :
  (serialisable playerId = true ->
   exists n,
     (1 <= n <= 11)%nat
     /\ (forall fuel, (11 <= fuel)%nat ->
           get_score_history_scores (paged_service docs) fuel playerId h
           = Some (Ok (firstn 110 docs),
                   h ++ map (scores_request playerId) (offsets n 0)))
     /\ (List.length docs <= 10 * (n - 1) \/ n = 11)%nat
     /\ (1 < n -> 10 * (n - 2) < List.length docs)%nat)
  /\ (serialisable playerId = false ->
      forall fuel, (1 <= fuel)%nat ->
        get_score_history_scores (paged_service docs) fuel playerId h
        = Some (Raise TypeError, h)).
Proof.
  split; intros Hs.
  - destruct (paged_pages docs playerId 11 Hs 0 h) as (n & Hn & Hrun & Hstop & Hfull);
      try lia.
    exists n. split; [exact Hn|]. split; [exact Hrun|]. split.
    + destruct Hstop as [Hstop|Hstop]; [left|right]; lia.
    + intros H. specialize (Hfull H). lia.
  - intros [|fuel] Hf; [lia|].
    now apply score_pages_unserialisable.
Qed.

Lemma score_history_of_paged_service_witness :
  exists n,
    get_score_history_scores (paged_service (sample_scores 35)) 11 (VStr "p1") []
    = Some (Ok (sample_scores 35), map (scores_request (VStr "p1")) (offsets n 0))
    /\ (1 <= n <= 11)%nat.
Proof.
  destruct (proj1 (score_history_of_paged_service (sample_scores 35) (VStr "p1") [])
              eq_refl) as (n & Hn & Hrun & _).
  exists n. split; [exact (Hrun 11%nat (le_n 11))|exact Hn].
Defined.

(** ** TournamentApi.get_score_history: the step charts *)

Lemma key_eqb_str (v : value) (t : string) :
  key_eqb v (VStr t) = true -> v = VStr t.
Proof.
  destruct v as [ |b|z|s|l|dd|c0|c0 a0]; simpl; try discriminate.
  intros H. apply String.eqb_eq in H. now subst.
Qed.

Lemma existsb_key_str (v : value) (sids : list string) :
  existsb (key_eqb v) (map VStr sids) = true ->
  exists t, v = VStr t /\ In t sids.
Proof.
  intros H. apply existsb_exists in H as (x & Hin & Hx).
  apply in_map_iff in Hin as (t & <- & Hin).
  exists t. split; [now apply key_eqb_str|exact Hin].
Qed.

Lemma map_VStr_app_inv (sids : list string) (l1 l2 : list value) :
  map VStr sids = l1 ++ l2 ->
  exists s1 s2, sids = s1 ++ s2 /\ l1 = map VStr s1 /\ l2 = map VStr s2.
Proof.
  revert sids. induction l1 as [|x l1 IH]; intros sids H.
  - exists [], sids. now repeat split.
  - destruct sids as [|t sids]; [discriminate|].
    simpl in H. injection H as <- H.
    destruct (IH sids H) as (s1 & s2 & -> & -> & ->).
    exists (t :: s1), s2. now repeat split.
Qed.

(** What the first loop leaves as the keys of [songs], when they are all
    strings: the chart identifiers of the scores, each once, in the order
    they first occur. *)
Lemma chart_keys_inv (scores : list value) :
  forall acc sids,
    chart_keys scores acc = Ok (map VStr sids) ->
    exists sacc smore,
      acc = map VStr sacc
      /\ sids = sacc ++ smore
      /\ (forall s, In s scores -> exists t, chart_id s = Ok (VStr t) /\ In t sids)
      /\ (forall t, In t smore -> exists s, In s scores /\ chart_id s = Ok (VStr t))
      /\ (NoDup sacc -> NoDup sids).
Proof.
  induction scores as [|s scores IH]; intros acc sids H.
  - simpl in H. injection H as ->. exists sids, []. rewrite app_nil_r.
    repeat split; try tauto; intros ? [].
  - simpl in H.
    destruct (chart_id s) as [v|e] eqn:Hv; simpl in H; [|discriminate].
    destruct (hashable v); [|discriminate].
    destruct (existsb (key_eqb v) acc) eqn:Hex.
    + destruct (IH acc sids H) as (sacc' & smore & Ha & -> & Hcov & Hnew & Hnd).
      exists sacc', smore. repeat split; try assumption.
      * intros s' [<-|Hin]; [|now apply Hcov].
        rewrite Ha in Hex. apply existsb_key_str in Hex as (t & -> & Hin).
        exists t. split; [exact Hv|]. apply in_or_app. now left.
      * intros t Ht. destruct (Hnew t Ht) as (s' & Hs' & Hc).
        exists s'. split; [now right|exact Hc].
    + destruct (IH (acc ++ [v]) sids H) as (sacc' & smore & Ha & Hsids & Hcov & Hnew & Hnd).
      symmetry in Ha.
      destruct (map_VStr_app_inv _ _ _ Ha) as (s1 & s2 & -> & Ha1 & Ha2).
      destruct s2 as [|t [|t' s2]]; try discriminate.
      simpl in Ha2. injection Ha2 as ->.
      exists s1, (t :: smore). rewrite Hsids, <- app_assoc. repeat split.
      * exact Ha1.
      * intros s' [<-|Hin].
        -- exists t. split; [exact Hv|]. apply in_or_app. right. now left.
        -- rewrite Hsids, <- app_assoc in Hcov. now apply Hcov.
      * intros u [<-|Hu]; [exists s; split; [now left|exact Hv]|].
        destruct (Hnew u Hu) as (s' & Hs' & Hc).
        exists s'. split; [now right|exact Hc].
      * intros ND. rewrite Hsids, <- app_assoc in Hnd. apply Hnd.
        apply NoDup_app; [exact ND|repeat constructor; intros []|].
        intros x Hx [<-|[]].
        assert (existsb (key_eqb (VStr t)) acc = true); [|congruence].
        rewrite Ha1. apply existsb_exists. exists (VStr t). split.
        -- now apply in_map.
        -- simpl. apply String.eqb_refl.
Qed.

Lemma scores_of_chart_filter (id : string) (scores l : list value) :
  scores_of_chart id scores = Ok l -> l = with_chart id scores.
Proof.
  revert l. induction scores as [|s scores IH]; intros l H; simpl in H.
  - now injection H as <-.
  - unfold with_chart. simpl.
    destruct (chart_id s) as [v|e]; simpl in H; [|discriminate].
    destruct (scores_of_chart id scores) as [tl|e]; simpl in H; [|discriminate].
    injection H as <-. rewrite (IH tl eq_refl).
    destruct (key_eqb v (VStr id)); reflexivity.
Qed.

Lemma bundle_of_response_scores (r : value) (id : string) (scores : list value)
    (bundle : value) :
  bundle_of_response r id scores = Ok bundle ->
  getitem bundle "scores" = Ok (VList (with_chart id scores)).
Proof.
  unfold bundle_of_response. intros H.
  destruct (getitem r "data") as [d|]; simpl in H; [|discriminate].
  destruct (getitem d "Stepchart") as [chart|]; simpl in H; [|discriminate].
  destruct (scores_of_chart id scores) as [l|] eqn:Hl; simpl in H; [|discriminate].
  destruct chart as [ |b|z|s|l0|dd|c0|c0 a0]; try discriminate.
  injection H as <-. simpl. rewrite get_setitem, String.eqb_refl.
  now rewrite (scores_of_chart_filter _ _ _ Hl).
Qed.

(** The second loop succeeds only on string keys. *)
Lemma populate_strings (b : backend) (scores : list value) (ids : list value) :
  forall songs h songs' h',
    populate b scores ids songs h = (Ok songs', h') ->
    exists sids, ids = map VStr sids.
Proof.
  induction ids as [|k ids IH]; intros songs h songs' h' H.
  - now exists [].
  - simpl in H. destruct k as [ |x|z|id|l|dd|c0|c0 a0]; try discriminate.
    destruct (b h (QStepchart id)) as [r|e]; [|discriminate].
    destruct (bundle_of_response r id scores) as [bundle|e]; [|discriminate].
    destruct (IH _ _ _ _ H) as [sids ->]. now exists (id :: sids).
Qed.

(** What the second loop returns, when it returns: one lookup and one
    bundle per key, in the order of the keys. *)
Lemma populate_inv (b : backend) (scores : list value) (sids : list string) :
  forall songs h songs' h',
    NoDup (keys songs ++ sids) ->
    populate b scores (map VStr sids) songs h = (Ok songs', h') ->
    exists bundles,
      songs' = songs ++ bundles
      /\ keys bundles = sids
      /\ h' = h ++ map QStepchart sids
      /\ Forall (fun kv => getitem (snd kv) "scores"
                           = Ok (VList (with_chart (fst kv) scores))) bundles.
Proof.
  induction sids as [|id sids IH]; intros songs h songs' h' ND H; simpl in H.
  - injection H as <- <-. exists []. rewrite !app_nil_r. repeat split. constructor.
  - destruct (b h (QStepchart id)) as [r|e]; [|discriminate].
    destruct (bundle_of_response r id scores) as [bundle|e] eqn:Hb; [|discriminate].
    assert (Hout : ~ In id (keys songs)).
    { apply NoDup_remove_2 in ND. intros Hin. apply ND.
      apply in_or_app. now left. }
    rewrite setitem_fresh in H by exact Hout.
    assert (ND' : NoDup (keys (songs ++ [(id, bundle)]) ++ sids)).
    { unfold keys. rewrite map_app, <- app_assoc. exact ND. }
    destruct (IH _ _ _ _ ND' H) as (bundles & -> & Hk & -> & Hf).
    exists ((id, bundle) :: bundles). rewrite <- !app_assoc. repeat split.
    + simpl. now rewrite Hk.
    + constructor; [|exact Hf]. simpl. now apply (bundle_of_response_scores r).
Qed.

Lemma get_score_history_inv (b : backend) (fuel : nat) (playerId : value)
    (h h' : list call) (answer : value) :
  get_score_history b fuel playerId h = Some (Ok answer, h') ->
  exists scores sent sids songs,
    get_score_history_scores (service_of b h) fuel playerId [] = Some (Ok scores, sent)
    /\ chart_keys scores [] = Ok (map VStr sids)
    /\ populate b scores (map VStr sids) [] (h ++ map Sent sent) = (Ok songs, h')
    /\ answer = VDict songs.
Proof.
  unfold get_score_history. intros H.
  destruct (get_score_history_scores (service_of b h) fuel playerId [])
    as [[[scores|e] sent]|]; try discriminate.
  destruct (chart_keys scores []) as [ids|e] eqn:Hk; [|discriminate].
  destruct (populate b scores ids [] (h ++ map Sent sent)) as [[songs|e] h2] eqn:Hp;
    [|discriminate].
  injection H as <- <-.
  destruct (populate_strings _ _ _ _ _ _ _ Hp) as [sids ->].
  now exists scores, sent, sids, songs.
Qed.

(** The shape of the answer of [get_score_history]. *)
Lemma get_score_history_structure (b : backend) (fuel : nat) (playerId : value)
    (h h' : list call) (songs : dict) :
  get_score_history b fuel playerId h = Some (Ok (VDict songs), h') ->
  exists scores sent,
    get_score_history_scores (service_of b h) fuel playerId [] = Some (Ok scores, sent)
    /\ h' = h ++ map Sent sent ++ map QStepchart (keys songs)
    /\ NoDup (keys songs)
    /\ (forall s, In s scores ->
          exists id, chart_id s = Ok (VStr id) /\ In id (keys songs))
    /\ (forall id, In id (keys songs) ->
          exists s, In s scores /\ chart_id s = Ok (VStr id))
    /\ (forall id bundle, get id songs = Some bundle ->
          getitem bundle "scores" = Ok (VList (with_chart id scores))).
Proof.
  intros H.
  apply get_score_history_inv in H
    as (scores & sent & sids & songs0 & Hrun & Hk & Hp & [= <-]).
  destruct (chart_keys_inv _ _ _ Hk)
    as (sacc & smore & Ha & -> & Hcov & Hnew & Hnd).
  destruct sacc; [|discriminate]. simpl in *.
  specialize (Hnd (NoDup_nil _)).
  apply populate_inv in Hp as (bundles & -> & Hkeys & -> & Hf); [|exact Hnd].
  exists scores, sent. cbn [app]. rewrite Hkeys, <- app_assoc.
  repeat split; try assumption.
  intros id bundle Hget. apply get_Some_In in Hget.
  rewrite Forall_forall in Hf. exact (Hf _ Hget).
Qed.

(** X8.  When [get_score_history] returns, its answer maps the chart
    identifiers of the accumulated scores, each once and in the order they
    first occur, to the bundle of that chart; it has looked up each of
    these charts exactly once, after the score queries; and the [scores]
    of a bundle are exactly the accumulated scores of that chart, in the
    order they were fetched, whatever the service had put under
    [scores]. *)
Theorem score_history_bundles (b : backend) (fuel : nat) (playerId : value)
    (h h' : list call) (songs : dict) :
  get_score_history b fuel playerId h = Some (Ok (VDict songs), h') ->
  exists scores sent,
    get_score_history_scores (service_of b h) fuel playerId [] = Some (Ok scores, sent)
    /\ h' = h ++ map Sent sent ++ map QStepchart (keys songs)
    /\ NoDup (keys songs)
    /\ (forall s, In s scores ->
          exists id, chart_id s = Ok (VStr id) /\ In id (keys songs))
    /\ (forall id, In id (keys songs) ->
          exists s, In s scores /\ chart_id s = Ok (VStr id))
    /\ (forall id bundle, get id songs = Some bundle ->
          getitem bundle "scores" = Ok (VList (with_chart id scores))).
Proof. exact (get_score_history_structure b fuel playerId h h' songs). Qed.

Lemma score_history_bundles_witness :
  exists songs,
    get_score_history (charts_backend three_scores) 11 (VStr "p1") []
    = Some (Ok (VDict songs),
            [ Sent (scores_request (VStr "p1") 0);
              Sent (scores_request (VStr "p1") 10);
              QStepchart "chartA"; QStepchart "chartB" ])
    /\ keys songs = [ "chartA"; "chartB" ]
    /\ (forall bundle, get "chartA" songs = Some bundle ->
          getitem bundle "scores"
          = Ok (VList [score_doc 1 "chartA"; score_doc 3 "chartA"])).
Proof.
  eexists. split; [vm_compute; reflexivity|]. split; [reflexivity|].
  intros bundle Hget.
  destruct (score_history_bundles (charts_backend three_scores) 11 (VStr "p1") [] _ _
              eq_refl) as (scores & sent & Hrun & _ & _ & _ & _ & Hb).
  injection Hrun as <- _.
  exact (Hb "chartA" bundle Hget).
Defined.

Lemma count_one (t : string) (sids : list string) (f : string -> nat) :
  NoDup sids -> In t sids ->
  list_sum (map (fun id => if String.eqb t id then S (f id) else f id) sids)
  = S (list_sum (map f sids)).
Proof.
  induction sids as [|u sids IH]; intros ND Hin; [contradiction|].
  inversion ND as [|? ? Hnot ND']; subst. simpl.
  destruct Hin as [->|Hin].
  - rewrite String.eqb_refl. simpl. do 3 f_equal.
    apply map_ext_in. intros a Ha.
    destruct (String.eqb t a) eqn:E; [|reflexivity].
    apply String.eqb_eq in E. now subst.
  - destruct (String.eqb t u) eqn:E.
    + apply String.eqb_eq in E. now subst.
    + rewrite (IH ND' Hin). lia.
Qed.

Lemma with_chart_partition (scores : list value) (sids : list string) :
  NoDup sids ->
  (forall s, In s scores -> exists t, chart_id s = Ok (VStr t) /\ In t sids) ->
  list_sum (map (fun id => List.length (with_chart id scores)) sids)
  = List.length scores.
Proof.
  intros ND. induction scores as [|s scores IH]; intros Hcov.
  - simpl. clear. induction sids as [|u sids IHs]; [reflexivity|exact IHs].
  - destruct (Hcov s (or_introl eq_refl)) as (t & Ht & Hin).
    simpl. rewrite <- IH by (intros s' Hs'; apply Hcov; now right).
    rewrite <- (count_one t sids _ ND Hin).
    f_equal. apply map_ext. intros id. unfold with_chart. simpl. rewrite Ht. simpl.
    destruct (String.eqb t id); reflexivity.
Qed.

(** X9.  Nothing is lost and nothing is repeated: the score lists of the
    bundles [get_score_history] returns add up to the accumulated scores,
    every one of which is in the bundle of its own chart. *)
Theorem score_history_partition (b : backend) (fuel : nat) (playerId : value)
    (h h' : list call) (songs : dict) (scores : list value) (sent : list request) :
  get_score_history b fuel playerId h = Some (Ok (VDict songs), h') ->
  get_score_history_scores (service_of b h) fuel playerId [] = Some (Ok scores, sent) ->
  list_sum (map (fun kv => List.length (bundle_scores (snd kv))) songs)
  = List.length scores
  /\ forall s, In s scores ->
       exists id bundle,
         chart_id s = Ok (VStr id) /\ get id songs = Some bundle
         /\ In s (bundle_scores bundle).
Proof.
  intros H Hrun.
  destruct (get_score_history_structure _ _ _ _ _ _ H)
    as (scores' & sent' & Hrun' & _ & ND & Hcov & _ & Hb).
  rewrite Hrun in Hrun'. injection Hrun' as <- <-.
  assert (Hbs : forall id bundle, In (id, bundle) songs ->
                  bundle_scores bundle = with_chart id scores).
  { intros id bundle Hin. unfold bundle_scores.
    now rewrite (Hb id bundle (NoDup_In_get _ _ _ ND Hin)). }
  split.
  - rewrite <- (with_chart_partition scores (keys songs) ND Hcov).
    unfold keys. rewrite map_map. f_equal. apply map_ext_in.
    intros [id bundle] Hin. simpl. now rewrite (Hbs id bundle Hin).
  - intros s Hs. destruct (Hcov s Hs) as (id & Hid & Hin).
    apply keys_In_get in Hin as [bundle Hget].
    exists id, bundle. split; [exact Hid|]. split; [exact Hget|].
    rewrite (Hbs id bundle (get_Some_In _ _ _ Hget)).
    unfold with_chart. apply filter_In. split; [exact Hs|].
    rewrite Hid. simpl. apply String.eqb_refl.
Qed.

Lemma score_history_partition_witness :
  list_sum (map (fun kv => List.length (bundle_scores (snd kv)))
              (match get_score_history (charts_backend three_scores) 11 (VStr "p1") [] with
               | Some (Ok (VDict songs), _) => songs
               | _ => []
               end))
  = 3%nat.
Proof.
  exact (proj1 (score_history_partition (charts_backend three_scores) 11 (VStr "p1")
                  [] _ _ three_scores _ eq_refl eq_refl)).
Defined.

Lemma chart_keys_raises (scores : list value) (s : value) (e0 : exn) :
  In s scores -> chart_id s = Raise e0 ->
  forall acc, exists e, chart_keys scores acc = Raise e.
Proof.
  intros Hin He. induction scores as [|s' scores IH]; intros acc; [contradiction|].
  simpl. destruct Hin as [->|Hin].
  - rewrite He. simpl. eauto.
  - destruct (chart_id s') as [v|e]; simpl; [|eauto].
    destruct (hashable v); [|eauto]. now apply IH.
Qed.

(** X10.  If one of the accumulated scores has no chart identifier (no
    [stepChart], or no [_id] in it), [get_score_history] raises after the
    score queries, before it looks up any step chart. *)
Theorem score_history_needs_chart_ids (b : backend) (fuel : nat) (playerId : value)
    (h : list call) (scores : list value) (sent : list request) (s : value) (e0 : exn) :
  get_score_history_scores (service_of b h) fuel playerId [] = Some (Ok scores, sent) ->
  In s scores ->
  chart_id s = Raise e0 ->
  exists e,
    get_score_history b fuel playerId h = Some (Raise e, h ++ map Sent sent).
Proof.
  intros Hrun Hin He. unfold get_score_history. rewrite Hrun.
  destruct (chart_keys_raises scores s e0 Hin He []) as [e ->].
  now exists e.
Qed.

Lemma score_history_needs_chart_ids_witness :
  exists e,
    get_score_history
      (charts_backend [score_doc 1 "chartA"; VDict [("_id", VInt 2)]]) 11 (VStr "p1") []
    = Some (Raise e, [ Sent (scores_request (VStr "p1") 0);
                       Sent (scores_request (VStr "p1") 10) ]).
Proof.
  exact (score_history_needs_chart_ids
           (charts_backend [score_doc 1 "chartA"; VDict [("_id", VInt 2)]])
           11 (VStr "p1") [] _ _ (VDict [("_id", VInt 2)]) (KeyError "stepChart")
           eq_refl (or_intror (or_introl eq_refl)) eq_refl).
Defined.

(** ** TournamentApi.post_score: keys, answers and precedence *)

(** X11.  A client built from a bare URL has no API key: [post_score]
    raises [AttributeError] and [broadcast] answers [False], whatever the
    arguments, and neither sends anything. *)
Theorem bare_url_client_has_no_key (class_dict : class -> dict) (srv : service)
    (u : string) (player upload : value) (h : list request) :
  post_score class_dict (api (TournamentApi_init (ConfigUrl u))) srv player upload h
  = (Raise (AttributeError "key"), h)
  /\ broadcast srv (TournamentApi_init (ConfigUrl u)) h = (Ok (VBool false), h).
Proof. split; reflexivity. Qed.

(** X12.  Once the data is built, [post_score] sends exactly one request.
    It returns [None] exactly when the service answers with [success]
    equal to [True]; when [success] is anything else it raises
    [TournamentApiError] with the answer's [message]; and what the service
    raises, it raises. *)
Theorem post_score_outcome (class_dict : class -> dict) (self : TournamentApi)
    (srv : service) (player upload : value) (data : dict) (h : list request) :
  post_score_data class_dict self player upload = Ok data ->
  let req := Post (url self ++ "/post-score") (wire_payload data) in
  let out := post_score class_dict self srv player upload h in
  snd out = h ++ [req]
  /\ (fst out = Ok VNone <->
      exists j s, srv h req = Ok j /\ getitem j "success" = Ok s /\ ne_True s = false)
  /\ (forall j s m,
        srv h req = Ok j -> getitem j "success" = Ok s -> ne_True s = true ->
        getitem j "message" = Ok m ->
        fst out = Raise (TournamentApiError m))
  /\ (forall e, srv h req = Raise e -> fst out = Raise e).
Proof.
  intros H req out. subst req out.
  unfold post_score, io_bind, lift, send, io_ret. rewrite H.
  destruct (srv h (Post (url self ++ "/post-score") (wire_payload data))) as [j|e];
    [destruct (getitem j "success") as [s|e] eqn:Hs;
     [destruct (ne_True s) eqn:Hn;
      [destruct (getitem j "message") as [m|e] eqn:Hm|]|]|];
    simpl;
    (split; [reflexivity|]);
    (split; [split; [intros Hv|intros (j' & s' & Hj & Hs' & Hn')]
            |split; [intros j' s' m' Hj Hs' Hn' Hm'|intros e' He']]);
    first [congruence | now exists j, s].
Qed.

Lemma post_score_outcome_witness :
  post_score fields_namespace sample_api ok_service sample_player sample_upload []
  = (Ok VNone,
     [Post "https://api.padmiss.com/post-score"
        (wire_payload (dict_of (post_score_data fields_namespace sample_api
                                  sample_player sample_upload)))])
  /\ fst (post_score fields_namespace sample_api auth_service sample_player
            sample_upload [])
     = Raise (TournamentApiError (VStr "denied")).
Proof.
  pose proof (post_score_outcome fields_namespace sample_api ok_service
                sample_player sample_upload _ [] eq_refl) as (Hsent & Hok & _).
  pose proof (post_score_outcome fields_namespace sample_api auth_service
                sample_player sample_upload _ [] eq_refl) as (_ & _ & Hno & _).
  split.
  - apply injective_projections; [|exact Hsent].
    apply Hok. eexists. eexists. repeat split; reflexivity.
  - apply (Hno _ (VBool false) (VStr "denied") eq_refl); reflexivity.
Defined.

(** X13.  An upload constructed without [score] cannot be posted: its
    [score] attribute is the class [Score], which has no [scoreValue], so
    [post_score] raises [AttributeError] and sends nothing. *)
Theorem post_score_needs_score (class_dict : class -> dict) (self : TournamentApi)
    (srv : service) (player : value) (kwargs : dict) (upload : value)
    (h : list request) :
  key self <> None ->
  (exists playerId, getattr player "_id" = Ok playerId) ->
  get "score" kwargs = None ->
  construct ChartUpload kwargs = Ok upload ->
  post_score class_dict self srv player upload h
  = (Raise (AttributeError "scoreValue"), h).
Proof.
  intros Hkey [playerId Hpid] Hget H.
  destruct (construct_Ok_inv _ _ _ H) as (attrs & -> & _).
  assert (Hs : get "score" attrs = Some (VClass Score)).
  { apply (construct_omitted_field ChartUpload kwargs attrs "score" (VClass Score));
      [exact (nodupb_NoDup (keys (cls_fields ChartUpload)) eq_refl)| |exact Hget|exact H].
    simpl. do 6 right. now left. }
  destruct (key self) as [apiKey|] eqn:Ek; [|now destruct Hkey].
  unfold post_score, io_bind, lift, post_score_data.
  rewrite Ek, Hpid. simpl. now rewrite Hs.
Qed.

Lemma post_score_needs_score_witness :
  post_score fields_namespace sample_api ok_service sample_player
    (value_of (construct ChartUpload upload_kwargs_flat)) []
  = (Raise (AttributeError "scoreValue"), []).
Proof.
  apply (post_score_needs_score fields_namespace sample_api ok_service sample_player
           upload_kwargs_flat).
  - discriminate.
  - now exists (VStr "p1").
  - reflexivity.
  - reflexivity.
Defined.



(** ** TournamentApi.authenticate, register_cab and broadcast *)

(** X15.  [register_cab] on a client that holds no authentication, as
    every client does when it has just been built, raises and sends
    nothing. *)
Theorem register_cab_needs_authentication (srv : service) (name : value)
    (self : Client) (h : list request) :
  truthy (auth self) = false ->
  register_cab srv name self h
  = (Raise (Exception "You need to authenticate first"), h).
Proof. intros H. unfold register_cab. now rewrite H. Qed.

Lemma register_cab_needs_authentication_witness :
  register_cab ok_service (VStr "cab 1") (TournamentApi_init sample_config) []
  = (Raise (Exception "You need to authenticate first"), []).
Proof.
  exact (register_cab_needs_authentication ok_service (VStr "cab 1")
           (TournamentApi_init sample_config) [] eq_refl).
Defined.

Lemma check_success_Ok (prefix : string) (j : value) :
  check_success prefix j = Ok tt ->
  (exists s, getitem j "success" = Ok s /\ ne_True s = false) /\ truthy j = true.
Proof.
  unfold check_success. intros H.
  destruct (getitem j "success") as [s|e] eqn:Hs; simpl in H; [|discriminate].
  destruct (ne_True s) eqn:Hn.
  - destruct (getitem j "message") as [m|e]; simpl in H; [|discriminate].
    destruct (str_add prefix m); discriminate.
  - split; [now exists s|].
    destruct j as [ |b|z|t|l|dd|c0|c0 a0]; try discriminate.
    simpl in Hs. destruct dd; [discriminate|reflexivity].
Qed.

(** What [authenticate] sends, returns and leaves in the client. *)
Lemma authenticate_cases (srv : service) (username password : value)
    (self : Client) (h : list request) :
  let req := Post (url (api self) ++ "/authenticate")
               [("email", username); ("password", password)] in
  let '(r, self', h') := authenticate srv username password self h in
  h' = h ++ [req]
  /\ api self' = api self
  /\ cfg self' = cfg self
  /\ (forall j, r = Ok j ->
        srv h req = Ok j
        /\ auth self' = j
        /\ (exists s, getitem j "success" = Ok s /\ ne_True s = false)
        /\ truthy j = true)
  /\ (forall e, r = Raise e -> self' = self).
Proof.
  unfold authenticate, send.
  change (dict_of_items [("email", username); ("password", password)])
    with [("email", username); ("password", password)].
  destruct (srv h (Post (url (api self) ++ "/authenticate")
                     [("email", username); ("password", password)])) as [j|e].
  - destruct (check_success "Authentication failed: " j) as [[]|e] eqn:Hc.
    + destruct (check_success_Ok _ _ Hc) as [Hs Ht].
      split; [reflexivity|]. split; [reflexivity|]. split; [reflexivity|].
      split; [|discriminate].
      intros j' [= <-]. now repeat split.
    + split; [reflexivity|]. split; [reflexivity|]. split; [reflexivity|].
      split; [discriminate|reflexivity].
  - split; [reflexivity|]. split; [reflexivity|]. split; [reflexivity|].
    split; [discriminate|reflexivity].
Qed.

(** X16.  [authenticate] sends one request, with the credentials.  When
    it returns, it returns the service's answer, whose [success] is
    [True], and the client holds that answer as its authentication; when
    it raises, the client is left as it was.  [url], [key] and [config] do
    not change either way. *)
Theorem authenticate_outcome (srv : service) (username password : value)
    (self : Client) (h : list request) :
  let req := Post (url (api self) ++ "/authenticate")
               [("email", username); ("password", password)] in
  let '(r, self', h') := authenticate srv username password self h in
  h' = h ++ [req]
  /\ api self' = api self
  /\ cfg self' = cfg self
  /\ (forall j, r = Ok j ->
        srv h req = Ok j
        /\ auth self' = j
        /\ (exists s, getitem j "success" = Ok s /\ ne_True s = false)
        /\ truthy j = true)
  /\ (forall e, r = Raise e -> self' = self).
Proof. exact (authenticate_cases srv username password self h). Qed.

(** X17.  After [authenticate] has returned, [register_cab] passes its
    check and sends the [token] of the authentication answer together
    with the cabinet's name; it raises [KeyError] without sending when
    that answer has no [token]. *)
Theorem register_cab_after_authenticate (srv : service)
    (username password name : value) (self self' : Client)
    (h h' : list request) (j : value) :
  authenticate srv username password self h = (Ok j, self', h') ->
  (forall token, getitem j "token" = Ok token ->
     snd (register_cab srv name self' h')
     = h' ++ [Post (url (api self) ++ "/api/arcade-cabs/create")
                [("token", token); ("name", name)]])
  /\ (getitem j "token" = Raise (KeyError "token") ->
      register_cab srv name self' h' = (Raise (KeyError "token"), h')).
Proof.
  intros H.
  pose proof (authenticate_cases srv username password self h) as Ho.
  cbv zeta in Ho. rewrite H in Ho.
  destruct Ho as (_ & Hapi & _ & Hok & _).
  destruct (Hok j eq_refl) as (_ & Hauth & _ & Ht).
  unfold register_cab. rewrite Hauth, Ht, Hapi.
  change (negb true) with false. cbv iota.
  split.
  - intros token Htok. unfold io_bind, lift, send. rewrite Htok. cbv beta iota.
    change (dict_of_items [("token", token); ("name", name)])
      with [("token", token); ("name", name)].
    destruct (srv h' (Post (url (api self) ++ "/api/arcade-cabs/create")
                        [("token", token); ("name", name)])) as [j2|e];
      [|reflexivity].
    destruct (check_success "Cab creation failed: " j2); reflexivity.
  - intros Htok. unfold io_bind, lift. now rewrite Htok.
Qed.

Lemma register_cab_after_authenticate_witness :
  register_cab auth_service (VStr "cab 1")
    (snd (fst (authenticate auth_service (VStr "ann@example.org") (VStr "s3cret")
                 (TournamentApi_init sample_config) [])))
    [Post "https://api.padmiss.com//authenticate"
       [("email", VStr "ann@example.org"); ("password", VStr "s3cret")]]
  = (Ok (VDict [("success", VBool true); ("cab", VStr "created")]),
     [ Post "https://api.padmiss.com//authenticate"
         [("email", VStr "ann@example.org"); ("password", VStr "s3cret")];
       Post "https://api.padmiss.com//api/arcade-cabs/create"
         [("token", VStr "tok-1"); ("name", VStr "cab 1")] ]).
Proof.
  apply injective_projections; [reflexivity|].
  exact (proj1 (register_cab_after_authenticate auth_service
                  (VStr "ann@example.org") (VStr "s3cret") (VStr "cab 1")
                  (TournamentApi_init sample_config) _ [] _ _ eq_refl)
           (VStr "tok-1") eq_refl).
Defined.

(** X18.  [broadcast] never raises: it answers [True] when its request
    could be built, the service answered and the answer's [success] is
    [True], and [False] in every other case, whether the configuration
    lacks something, the service raised, or it refused.  It sends its one
    request exactly when the request could be built. *)
Theorem broadcast_never_raises (srv : service) (self : Client) (h : list request) :
  exists b,
    fst (broadcast srv self h) = Ok (VBool b)
    /\ (b = true <->
        exists req j s,
          broadcast_request self = Ok req /\ srv h req = Ok j
          /\ getitem j "success" = Ok s /\ ne_True s = false)
    /\ (forall req, broadcast_request self = Ok req ->
          snd (broadcast srv self h) = h ++ [req])
    /\ (forall e, broadcast_request self = Raise e ->
          snd (broadcast srv self h) = h).
Proof.
  unfold broadcast, broadcast_try, io_bind, lift, send, io_ret.
  destruct (broadcast_request self) as [req|e];
    [destruct (srv h req) as [j|e] eqn:Hj;
     [destruct (getitem j "success") as [s|e] eqn:Hs;
      [destruct (ne_True s) eqn:Hn|]|]|];
    simpl;
    match goal with
    | |- exists b, Ok (VBool ?x) = _ /\ _ => exists x
    end;
    (split; [reflexivity|]);
    (split; [split; [intros Hb|intros (req' & j' & s' & Hr & Hj' & Hs' & Hn')]
            |split; [intros req' Hr|intros e' He']]);
    first [congruence | now exists req, j, s].
Qed.

Lemma broadcast_never_raises_witness :
  broadcast ok_service (TournamentApi_init sample_config) []
  = (Ok (VBool true),
     [Post "https://api.padmiss.com/api/arcade-cabs/broadcast"
        [("apiKey", VStr "cab-key"); ("ip", VStr "192.168.1.20:8080")]])
  /\ broadcast down_service (TournamentApi_init sample_config) []
     = (Ok (VBool false),
        [Post "https://api.padmiss.com/api/arcade-cabs/broadcast"
           [("apiKey", VStr "cab-key"); ("ip", VStr "192.168.1.20:8080")]]).
Proof.
  destruct (broadcast_never_raises ok_service (TournamentApi_init sample_config) [])
    as (b & Hb & _ & Hsent & _).
  destruct (broadcast_never_raises down_service (TournamentApi_init sample_config) [])
    as (b' & Hb' & _ & Hsent' & _).
  split; apply injective_projections;
    [reflexivity|exact (Hsent _ eq_refl)|reflexivity|exact (Hsent' _ eq_refl)].
Defined.

(** ** TournamentApi.get_last_sore *)

(** X19.  [get_last_sore] asks one question and hands back the first
    document of the answer as it came, not wrapped in any record: [None]
    when the answer has no [data] or its list of documents is empty, the
    head of the list otherwise.  (A [playerId] that [json.dumps] refuses
    makes it raise before anything is asked.) *)
Theorem get_last_sore_answer (b : backend) (playerId : value) (h : list call)
    (scores : value) :
  b h (QLastScore [("player", playerId)]) = Ok scores ->
  (serialisable playerId = true ->
   snd (get_last_sore b playerId h) = h ++ [QLastScore [("player", playerId)]]
   /\ (contains "data" scores = Ok false ->
       fst (get_last_sore b playerId h) = Ok VNone)
   /\ (forall sc docs,
         scores_of scores = Ok sc -> getitem sc "docs" = Ok (VList docs) ->
         fst (get_last_sore b playerId h)
         = Ok (match docs with
               | [] => VNone
               | doc :: _ => doc
               end)))
  /\ (serialisable playerId = false ->
      get_last_sore b playerId h = (Raise TypeError, h)).
Proof.
  intros Hb. unfold get_last_sore. split; intros Hs.
  - rewrite json_dumps_Ok by now rewrite serialisable_filter.
    simpl. rewrite Hb. simpl.
    split; [reflexivity|]. split.
    + intros Hc. unfold last_score_of_response. now rewrite Hc.
    + intros sc docs Hsc Hdocs. unfold scores_of in Hsc.
      unfold last_score_of_response.
      destruct (getitem scores "data") as [d|] eqn:Hd; simpl in Hsc; [|discriminate].
      rewrite (getitem_contains _ _ _ Hd). simpl. rewrite Hsc. simpl.
      rewrite Hdocs. simpl.
      destruct docs as [|doc docs]; reflexivity.
  - now rewrite json_dumps_Raise by now rewrite serialisable_filter.
Qed.

Lemma get_last_sore_answer_witness :
  fst (get_last_sore
         (fun _ _ => Ok (scores_response 3 [score_doc 3 "chartA"]))
         (VStr "p1") [])
  = Ok (score_doc 3 "chartA").
Proof.
  exact (proj2 (proj2 (proj1 (get_last_sore_answer
                                (fun _ _ => Ok (scores_response 3 [score_doc 3 "chartA"]))
                                (VStr "p1") [] _ eq_refl) eq_refl))
           _ [score_doc 3 "chartA"] eq_refl eq_refl).
Defined.

(** ** Event lists of an upload *)

Lemma mapM_dunder_dict_raw (class_dict : class -> dict) (es : list value) (d : dict) :
  In (VDict d) es -> exists e, mapM (dunder_dict class_dict) es = Raise e.
Proof.
  induction es as [|x es IH]; intros Hin; [contradiction|]. simpl.
  destruct Hin as [->|Hin]; [simpl; eauto|].
  destruct (dunder_dict class_dict x); simpl; [|eauto].
  destruct (IH Hin) as [e ->]. simpl. eauto.
Qed.

Lemma dicts_of_raw (class_dict : class -> dict) (es : list value) (d : dict) :
  In (VDict d) es -> exists e, dicts_of class_dict (VList es) = Raise e.
Proof.
  intros Hin. unfold dicts_of. simpl.
  destruct (mapM_dunder_dict_raw class_dict es d Hin) as [e ->]. simpl. eauto.
Qed.

(** X20.  The elements of [inputEvents] and [noteScoresWithBeats] are not
    converted by construction: an upload built with an event given as a
    raw mapping keeps the list as supplied, and [post_score] on it raises
    without sending anything. *)
Theorem post_score_raw_events (class_dict : class -> dict) (self : TournamentApi)
    (srv : service) (player : value) (kwargs attrs : dict) (k : string)
    (es : list value) (d : dict) (h : list request) :
  construct ChartUpload kwargs = Ok (VInst ChartUpload attrs) ->
  k = "inputEvents" \/ k = "noteScoresWithBeats" ->
  get k kwargs = Some (VList es) ->
  In (VDict d) es ->
  get k attrs = Some (VList es)
  /\ exists e,
       post_score class_dict self srv player (VInst ChartUpload attrs) h = (Raise e, h).
Proof.
  intros Hc Hk Hget Hin.
  apply construct_Ok_inv in Hc as (attrs0 & [= <-] & Hinit).
  assert (Hattr : get k attrs = Some (VList es)).
  { apply (init_fields_supplied call_spec kwargs (cls_fields ChartUpload) k (VList es)
             Hget (fun c _ => andb_false_r _) [] attrs Hinit).
    left. destruct Hk as [->| ->]; simpl; tauto. }
  split; [exact Hattr|].
  destruct (dicts_of_raw class_dict es d Hin) as [e0 He0].
  assert (exists e, post_score_data class_dict self player (VInst ChartUpload attrs)
                    = Raise e) as [e He].
  { unfold post_score_data.
    destruct (match key self with Some k0 => Ok k0 | None => Raise (AttributeError "key") end)
      as [apiKey|?]; cbn [bind]; [|eauto].
    destruct (getattr player "_id") as [playerId|?]; cbn [bind]; [|eauto].
    destruct (getattr (VInst ChartUpload attrs) "score") as [s|?]; cbn [bind]; [|eauto].
    destruct (getattr s "scoreValue") as [?|?]; cbn [bind]; [|eauto].
    destruct (getattr s "passed") as [?|?]; cbn [bind]; [|eauto].
    destruct (getattr s "secondsSurvived") as [?|?]; cbn [bind]; [|eauto].
    destruct (getattr (VInst ChartUpload attrs) "group") as [?|?]; cbn [bind]; [|eauto].
    destruct (getattr s "scoreBreakdown") as [sb|?]; cbn [bind]; [|eauto].
    destruct (dunder_dict class_dict sb) as [?|?]; cbn [bind]; [|eauto].
    destruct (getattr (VInst ChartUpload attrs) "song") as [sg|?]; cbn [bind]; [|eauto].
    destruct (dunder_dict class_dict sg) as [?|?]; cbn [bind]; [|eauto].
    cbn [dunder_dict bind].
    destruct Hk as [->| ->].
    - rewrite (getattr_inst ChartUpload attrs _ _ Hattr). cbn [bind].
      rewrite He0. cbn [bind]. eauto.
    - destruct (getattr (VInst ChartUpload attrs) "inputEvents") as [l|?];
        cbn [bind]; [|eauto].
      destruct (dicts_of class_dict l) as [?|?]; cbn [bind]; [|eauto].
      rewrite (getattr_inst ChartUpload attrs _ _ Hattr). cbn [bind].
      rewrite He0. cbn [bind]. eauto. }
  exists e. unfold post_score, io_bind, lift. now rewrite He.
Qed.

Lemma post_score_raw_events_witness :
  get "inputEvents" (attrs_of (value_of (construct ChartUpload upload_kwargs_raw_events)))
  = Some (VList [raw_event])
  /\ exists e,
       post_score fields_namespace sample_api ok_service sample_player
         (value_of (construct ChartUpload upload_kwargs_raw_events)) []
       = (Raise e, []).
Proof.
  exact (post_score_raw_events fields_namespace sample_api ok_service sample_player
           upload_kwargs_raw_events _ "inputEvents" [raw_event]
           [("beat", VInt 4); ("column", VInt 2); ("released", VBool false)] []
           eq_refl (or_introl eq_refl) eq_refl (or_introl eq_refl)).
Defined.

(** ** TournamentApi.get_player: the query and incomplete documents *)

(** X21.  [get_player] builds the filter of its query from the arguments
    that are truthy, under [_id], [rfidUid] and [nickname] in that order;
    an argument that is [None], empty or zero is left out, so that a call
    with no usable argument queries with the empty filter.  When
    [json.dumps] accepts the filter, exactly one query is sent, whatever
    comes back, and what the service raises, [get_player] raises; when it
    does not, [get_player] raises [TypeError] and sends nothing. *)
Theorem get_player_query (srv : service) (playerId rfidUid nickname : value)
    (h : list request) :
  let f := filter (fun kv => truthy (snd kv))
             [("_id", playerId); ("rfidUid", rfidUid); ("nickname", nickname)] in
  (serialisable (VDict f) = true ->
   snd (get_player srv playerId rfidUid nickname h) = h ++ [QPlayers f]
   /\ forall e, srv h (QPlayers f) = Raise e ->
        fst (get_player srv playerId rfidUid nickname h) = Raise e)
  /\ (serialisable (VDict f) = false ->
      get_player srv playerId rfidUid nickname h = (Raise TypeError, h)).
Proof.
  assert (E : player_filter playerId rfidUid nickname
              = filter (fun kv => truthy (snd kv))
                  [("_id", playerId); ("rfidUid", rfidUid); ("nickname", nickname)]).
  { unfold player_filter. simpl.
    destruct (truthy playerId), (truthy rfidUid), (truthy nickname); reflexivity. }
  cbv zeta. rewrite <- E. unfold get_player, io_bind, send, lift.
  split; intros Hs.
  - rewrite (json_dumps_Ok _ Hs). split.
    + now destruct (srv h (QPlayers (player_filter playerId rfidUid nickname))).
    + intros e He. now rewrite He.
  - now rewrite (json_dumps_Raise _ Hs).
Qed.

Lemma get_player_query_witness :
  snd (get_player (players_service []) (VStr "p1") VNone (VStr "") [])
  = [QPlayers [("_id", VStr "p1")]]
  /\ get_player (players_service []) VNone (VClass Player) VNone []
     = (Raise TypeError, []).
Proof.
  split.
  - exact (proj1 (proj1 (get_player_query (players_service []) (VStr "p1") VNone
                           (VStr "") []) eq_refl)).
  - exact (proj2 (get_player_query (players_service []) VNone (VClass Player) VNone [])
             eq_refl).
Defined.

(** X22.  When the one matching document has no key named [self] and
    lacks [nickname], or carries it but lacks [_id], [get_player] raises
    the error of the missing parameter; it does not answer [None].  A lone
    document that has a key named [self], or that is not a mapping, makes
    it raise [TypeError]. *)
Theorem get_player_incomplete_document (srv : service)
    (playerId rfidUid nickname : value) (h : list request) (data doc : value) :
  serialisable (VDict (player_filter playerId rfidUid nickname)) = true ->
  srv h (QPlayers (player_filter playerId rfidUid nickname)) = Ok data ->
  players_docs data = Ok (VList [doc]) ->
  let answer := fst (get_player srv playerId rfidUid nickname h) in
  (forall d, doc = VDict d -> mem "self" d = false -> get "nickname" d = None ->
     answer = Raise (TournamentApiError (VStr "Required parameter 'nickname' missing")))
  /\ (forall d, doc = VDict d -> mem "self" d = false ->
        mem "nickname" d = true -> get "_id" d = None ->
        answer = Raise (TournamentApiError (VStr "Required parameter '_id' missing")))
  /\ (forall d, doc = VDict d -> mem "self" d = true -> answer = Raise TypeError)
  /\ (isinstance_dict doc = false -> answer = Raise TypeError).
Proof.
  intros Hser Hsrv Hdocs answer. subst answer.
  rewrite (get_player_answer _ _ _ _ _ _ Hser Hsrv). simpl fst.
  rewrite (player_of_response_docs _ _ Hdocs).
  split; [|split; [|split]].
  - intros d -> Hself Hn. cbn [instantiate]. rewrite (construct_loop _ _ Hself).
    change (cls_fields Player)
      with ([] ++ ("nickname", VNone)
              :: [ ("shortNickname", VStr EmptyString);
                   ("avatarIconUrl", VStr EmptyString); ("rfidUid", VStr EmptyString);
                   ("_id", VNone); ("metaData", VStr "{}"); ("mountType", VBool false) ]).
    rewrite (init_fields_first_missing call_spec d [] _ "nickname"
               (fun _ _ (H : In _ []) => match H with end) Hn).
    reflexivity.
  - intros d -> Hself Hn Hi. cbn [instantiate]. rewrite (construct_loop _ _ Hself).
    change (cls_fields Player)
      with ([ ("nickname", VNone); ("shortNickname", VStr EmptyString);
              ("avatarIconUrl", VStr EmptyString); ("rfidUid", VStr EmptyString) ]
              ++ ("_id", VNone) :: [("metaData", VStr "{}"); ("mountType", VBool false)]).
    rewrite (init_fields_first_missing call_spec d _ _ "_id"); [reflexivity| |exact Hi].
    intros k0 c0 Hin0.
    destruct (mem_get _ _ Hn) as [v Hv].
    unfold init_field.
    simpl in Hin0.
    destruct Hin0 as [[= <- <-]|[[= <- <-]|[[= <- <-]|[[= <- <-]|[]]]]];
      try rewrite Hv; simpl; eauto;
      match goal with
      | |- context [get ?k d] => destruct (get k d); simpl; eauto
      end.
  - intros d -> Hself. cbn [instantiate]. now apply construct_self.
  - intros Hd. destruct doc as [ |b|z|s|l|dd|c0|c0 a0]; try reflexivity.
    discriminate.
Qed.

Lemma get_player_incomplete_document_witness :
  fst (get_player (players_service [anonymous_doc]) VNone VNone (VStr "ann") [])
  = Raise (TournamentApiError (VStr "Required parameter '_id' missing")).
Proof.
  exact (proj1 (proj2 (get_player_incomplete_document
                         (players_service [anonymous_doc]) VNone VNone (VStr "ann") []
                         _ anonymous_doc eq_refl eq_refl eq_refl))
           _ eq_refl eq_refl eq_refl eq_refl).
Defined.
